(** * HD-Leads-Collector: the lead client and the sheet manager

    A shallow embedding of [hd_api_client.py] (class [HDLeadsClient]),
    [sheets_manager.py] (class [SheetsManager]) and the CSV export of
    [collect_leads.py], with the properties of their pagination, token
    cache, header check, duplicate filter, replacement and export.

    Python values are the decoded JSON the two services exchange.  Floats
    are left out: no code path of the two classes computes with one.
    Console output ([print]) is not part of the model. *)

From Stdlib Require Import ZArith String List Lia.
From stdpp Require Import base option list strings gmap pretty.

Local Open Scope string_scope.
Local Open Scope Z_scope.
Local Open Scope list_scope.

(** ** Python values *)

Module Py.

(** What [json.loads] delivers: [None], booleans, integers, strings, lists
    and dicts.  A dict keeps its items in insertion order; a lookup finds
    the first item with the key. *)
#[warnings="-register-all"]
Inductive value : Type :=
| VNone
| VBool (b : bool)
| VInt (z : Z)
| VStr (s : string)
| VList (l : list value)
| VDict (d : list (string * value)).

Abbreviation dict := (list (string * value)).

(** The exceptions the two classes can meet. *)
Inductive exn : Type :=
| HttpError (status : Z)      (* googleapiclient.errors.HttpError *)
| RequestException            (* requests.exceptions.RequestException *)
| AttributeError
| TypeError
| ValueError
| OverflowError
| RecursionError
| Exception (msg : string).

Inductive result (A : Type) : Type :=
| Ok (a : A)
| Raise (e : exn).
Arguments Ok {A} a.
Arguments Raise {A} e.

Definition rbind {A B} (r : result A) (k : A -> result B) : result B :=
  match r with
  | Ok a => k a
  | Raise e => Raise e
  end.

Notation "'let*' x := c 'in' k" := (rbind c (fun x => k))
  (at level 10, x name, c at level 100, k at level 200).

Fixpoint assoc (k : string) (d : dict) : option value :=
  match d with
  | [] => None
  | (k', v) :: rest => if decide (k = k') then Some v else assoc k rest
  end.

(** [d.get(k)] and [d.get(k, dflt)] on a dict. *)
Definition dict_get (d : dict) (k : string) : value :=
  default VNone (assoc k d).

Definition dict_get_default (d : dict) (k : string) (dflt : value) : value :=
  default dflt (assoc k d).

(** [v.get(k, dflt)] on any value: only a dict has the method. *)
Definition py_get (v : value) (k : string) (dflt : value) : result value :=
  match v with
  | VDict d => Ok (dict_get_default d k dflt)
  | _ => Raise AttributeError
  end.

(** Truth value of [v] in [if v] and [not v]. *)
Definition truthy (v : value) : bool :=
  match v with
  | VNone => false
  | VBool b => b
  | VInt z => negb (z =? 0)
  | VStr s => negb (String.eqb s "")
  | VList l => negb (bool_decide (l = []))
  | VDict d => negb (bool_decide (d = []))
  end.

Fixpoint chars (s : string) : list value :=
  match s with
  | EmptyString => []
  | String c rest => VStr (String c EmptyString) :: chars rest
  end.

(** The items a [for] loop or [list.extend] draws from [v]. *)
Definition py_iter (v : value) : result (list value) :=
  match v with
  | VList l => Ok l
  | VStr s => Ok (chars s)
  | VDict d => Ok (map (fun kv => VStr (fst kv)) d)
  | VNone | VBool _ | VInt _ => Raise TypeError
  end.

(** [len(v)]. *)
Definition py_len (v : value) : result Z :=
  match v with
  | VList l => Ok (Z.of_nat (length l))
  | VStr s => Ok (Z.of_nat (String.length s))
  | VDict d => Ok (Z.of_nat (length d))
  | VNone | VBool _ | VInt _ => Raise TypeError
  end.

(** Library functions of the interpreter the code calls and this
    development takes as given: [repr] of a list or dict, [strftime] of an
    instant (microseconds on the local clock), [int] of a string and the
    Base64 text of a string. *)
Class Builtins : Type := {
  py_repr : value -> string;
  strftime : string -> Z -> string;
  int_of_str : string -> option Z;
  b64encode : string -> string
}.

Section WithBuiltins.
Context `{Builtins}.

(** [str(v)], what an f-string field [{v}] renders. *)
Definition py_str (v : value) : string :=
  match v with
  | VNone => "None"
  | VBool true => "True"
  | VBool false => "False"
  | VInt z => pretty z
  | VStr s => s
  | VList _ | VDict _ => py_repr v
  end.

(** [int(v)]. *)
Definition py_int (v : value) : result Z :=
  match v with
  | VInt z => Ok z
  | VBool b => Ok (if b then 1 else 0)
  | VStr s => match int_of_str s with Some z => Ok z | None => Raise ValueError end
  | VNone | VList _ | VDict _ => Raise TypeError
  end.

End WithBuiltins.

(** Builtins for the closed examples; the examples do not depend on the
    choice. *)
Definition demo_builtins : Builtins :=
  {| py_repr := fun _ => "<object>";
     strftime := fun _ t => pretty t;
     int_of_str := fun _ => None;
     b64encode := fun s => s |}.

End Py.

Import Py.

(** ** sheets_manager.py *)

Module Sheets.

(** [SheetsManager.HEADERS] *)
Definition HEADERS : list string :=
  [ "Service Center ID"; "Order Number"; "Created Date"; "Status";
    "First Name"; "Last Name"; "Phone"; "Cell Phone"; "Email"; "Address";
    "City"; "State"; "Zip Code"; "Store Number"; "Store Name"; "Program";
    "MVendor"; "Description"; "Question Answers"; "Notes"; "Last Updated" ].

Section Rows.
Context `{Builtins}.

(** One turn of the loop of [_extract_notes]: the text the note adds, if
    any. *)
Definition note_entry (note : value) : result (option string) :=
  let* note_text := py_get note "Note" (VStr "") in
  if truthy note_text then
    let* created := py_get note "Created" (VStr "") in
    Ok (Some ("[" +:+ py_str created +:+ "] " +:+ py_str note_text))
  else Ok None.

Fixpoint notes_loop (notes_list : list value) (notes_text : list string)
  : result (list string) :=
  match notes_list with
  | [] => Ok notes_text
  | note :: rest =>
      let* e := note_entry note in
      notes_loop rest (match e with Some s => notes_text ++ [s] | None => notes_text end)
  end.

(** [SheetsManager._extract_notes] *)
Definition extract_notes (lead : dict) : result string :=
  let notes_data := dict_get lead "ListOfSfinotesws" in
  if negb (truthy notes_data) then Ok ""
  else
    let* notes_list := py_get notes_data "Sfinotesws" (VList []) in
    let notes_list :=
      match notes_list with
      | VDict _ => VList [notes_list]
      | _ => notes_list
      end in
    let* items := py_iter notes_list in
    let* notes_text := notes_loop items [] in
    Ok (String.concat " | " notes_text).

(** [SheetsManager._lead_to_row], but for its last cell: the twenty cells
    that come from the lead.  The first [lead.get] raises on a value that
    is no dict; on a dict only [_extract_notes] can raise. *)
Definition lead_cells (lead : value) : result (list value) :=
  match lead with
  | VDict d =>
      let get k := dict_get_default d k (VStr "") in
      let* notes := extract_notes d in
      Ok [ get "Id";
           get "MMSVCSServiceProviderOrderNumber";
           get "Created";
           get "SFIWorkflowOnlyStatus";
           get "ContactFirstName";
           get "ContactLastName";
           (if truthy (get "MMSVPreferredContactPhoneNumber")
            then get "MMSVPreferredContactPhoneNumber"
            else get "SFIContactHomePhone");
           get "CellularPhone";
           get "MainEmailAddress";
           get "MMSVSiteAddress";
           get "MMSVSiteCity";
           get "MMSVSiteState";
           get "MMSVSitePostalCode";
           get "MMSVStoreNumber";
           get "MMSVStoreName";
           get "SFIProgramGroupNameUnconstrained";
           get "SFIMVendor";
           get "Description";
           get "MMSVQuestionAnswers";
           VStr notes ]
  | _ => Raise AttributeError
  end.

End Rows.

(** *** The spreadsheet service

    The manager talks to the service through five requests.  The model
    keeps, per tab, the rows of text cells, and answers the requests the
    way the service does for the ranges the manager uses: a read leaves
    out the trailing empty cells of a row and the trailing empty rows, and
    a request on a tab that does not exist fails with status 400. *)

Inductive range : Type :=
| A1_U1    (* f"{sheet_name}!A1:U1" *)
| A_A      (* f"{sheet_name}!A:A" *)
| A_U.     (* f"{sheet_name}!A:U" *)

Inductive call : Type :=
| CGet (sheet_name : string) (r : range)
| CUpdate (sheet_name : string) (r : range) (values : list (list value))
| CAppend (sheet_name : string) (r : range) (values : list (list value))
| CAddSheet (title : string)
| CClear (sheet_name : string).    (* clear of f"{sheet_name}!A2:U" *)

Definition is_write (c : call) : bool :=
  match c with
  | CGet _ _ => false
  | _ => true
  end.

Record store : Type := {
  tabs : gmap string (list (list string));
  outage : option Z;   (* set: every request fails with this status *)
  clock : Z;           (* datetime.now(); it stands still during a call *)
  calls : list call    (* the requests sent, oldest first *)
}.

Definition M (A : Type) : Type := store -> result A * store.

Definition ret {A} (a : A) : M A := fun w => (Ok a, w).
Definition raise {A} (e : exn) : M A := fun w => (Raise e, w).
Definition lift {A} (r : result A) : M A := fun w => (r, w).

Definition bind {A B} (m : M A) (k : A -> M B) : M B :=
  fun w =>
    match m w with
    | (Ok a, w') => k a w'
    | (Raise e, w') => (Raise e, w')
    end.

Notation "'let!' x := c 'in' k" := (bind c (fun x => k))
  (at level 10, x name, c at level 100, k at level 200).

(** [try: m  except HttpError as e: h e.resp.status] *)
Definition except_HttpError {A} (m : M A) (h : Z -> M A) : M A :=
  fun w =>
    match m w with
    | (Raise (HttpError status), w') => h status w'
    | other => other
    end.

Definition logged (c : call) (w : store) : store :=
  {| tabs := tabs w; outage := outage w; clock := clock w;
     calls := calls w ++ [c] |}.

Definition with_tab (name : string) (rows : list (list string)) (w : store)
  : store :=
  {| tabs := <[name := rows]> (tabs w); outage := outage w;
     clock := clock w; calls := calls w |}.

Definition send (c : call) : M unit := fun w => (Ok tt, logged c w).

Definition set_tab (name : string) (rows : list (list string)) : M unit :=
  fun w => (Ok tt, with_tab name rows w).

Definition service_up : M unit :=
  fun w =>
    match outage w with
    | Some status => (Raise (HttpError status), w)
    | None => (Ok tt, w)
    end.

(** The rows of tab [name], once a request has reached the service. *)
Definition open_tab (name : string) : M (list (list string)) :=
  let! _ := service_up in
  fun w =>
    match tabs w !! name with
    | Some rows => (Ok rows, w)
    | None => (Raise (HttpError 400), w)
    end.

(** Remove the trailing items that satisfy [blank]. *)
Definition rstrip {A} (blank : A -> bool) (l : list A) : list A :=
  foldr (fun x acc =>
           match acc with
           | [] => if blank x then [] else [x]
           | _ :: _ => x :: acc
           end) [] l.

Definition blank_cell (c : string) : bool := String.eqb c "".
Definition blank_row (r : list string) : bool :=
  match r with [] => true | _ :: _ => false end.

(** What a read of the first [width] columns returns for the rows. *)
Definition view (width : nat) (rows : list (list string)) : list (list string) :=
  rstrip blank_row (map (fun r => rstrip blank_cell (take width r)) rows).

(** The text the service stores for a cell of a request body.  [None]:
    the body is refused.  A null cell carries no text. *)
Definition cell_text (v : value) : option string :=
  match v with
  | VStr s => Some s
  | VNone => Some ""
  | VBool true => Some "TRUE"
  | VBool false => Some "FALSE"
  | VInt z => Some (pretty z)
  | VList _ | VDict _ => None
  end.

Definition body_text (values : list (list value)) : option (list (list string)) :=
  mapM (mapM cell_text) values.

(** [service.spreadsheets().values().get(range=...).execute()], then
    [result.get('values', [])]: the response has no ['values'] when the
    range holds nothing.  [A:U] is not read by the manager. *)
Definition values_get (sheet_name : string) (r : range) : M (list (list string)) :=
  let! _ := send (CGet sheet_name r) in
  let! rows := open_tab sheet_name in
  ret (match r with
       | A1_U1 => view 21 (take 1 rows)
       | A_A => view 1 rows
       | A_U => view 21 rows
       end).

(** Overwrite the leading cells of [old] with [new]. *)
Definition overwrite (new old : list string) : list string :=
  new ++ drop (length new) old.

Fixpoint overwrite_rows (new old : list (list string)) : list (list string) :=
  match new, old with
  | [], _ => old
  | n :: new', [] => n :: overwrite_rows new' []
  | n :: new', o :: old' => overwrite n o :: overwrite_rows new' old'
  end.

(** [values().update(range="...!A1:U1", valueInputOption='RAW', body=...)] *)
Definition values_update (sheet_name : string) (r : range)
    (values : list (list value)) : M unit :=
  let! _ := send (CUpdate sheet_name r values) in
  let! rows := open_tab sheet_name in
  match body_text values with
  | Some new => set_tab sheet_name (overwrite_rows new rows)
  | None => raise (HttpError 400)
  end.

(** [values().append(range="...!A:U", insertDataOption='INSERT_ROWS',
    body=...)]: the rows go below the rows of the tab; the answer carries
    [updates.updatedRows], the number of rows of the body. *)
Definition values_append (sheet_name : string) (r : range)
    (values : list (list value)) : M (option Z) :=
  let! _ := send (CAppend sheet_name r values) in
  let! rows := open_tab sheet_name in
  match body_text values with
  | Some new =>
      let! _ := set_tab sheet_name (rows ++ new) in
      ret (Some (Z.of_nat (length values)))
  | None => raise (HttpError 400)
  end.

(** [batchUpdate(body={'requests': [{'addSheet': ...}]})]: refused when a
    tab has the title already. *)
Definition add_sheet (title : string) : M unit :=
  let! _ := send (CAddSheet title) in
  let! _ := service_up in
  fun w =>
    match tabs w !! title with
    | Some _ => (Raise (HttpError 400), w)
    | None => set_tab title [] w
    end.

(** *** The manager *)

Section Manager.
Context `{Builtins}.

(** [SheetsManager._create_sheet] *)
Definition create_sheet (sheet_name : string) : M unit :=
  except_HttpError (add_sheet sheet_name) (fun _ => ret tt).

(** The [try] block of [_ensure_headers]. *)
Definition check_headers (sheet_name : string) : M unit :=
  let! values := values_get sheet_name A1_U1 in
  if bool_decide (values = []) || negb (bool_decide (head values = Some HEADERS))
  then values_update sheet_name A1_U1 [map VStr HEADERS]
  else ret tt.

(** [SheetsManager._ensure_headers]; [depth] is the number of frames the
    interpreter still grants the recursion.  The frames the calls inside a
    round need are not counted: where the recursion is cut, the
    interpreter can give up inside a round, in one of its service calls,
    and not only at the entry of the next one. *)
Fixpoint ensure_headers_at (depth : nat) (sheet_name : string) : M unit :=
  match depth with
  | O => raise RecursionError
  | S depth' =>
      except_HttpError (check_headers sheet_name)
        (fun status =>
           if status =? 400 then
             let! _ := create_sheet sheet_name in
             ensure_headers_at depth' sheet_name
           else raise (HttpError status))
  end.

(** [sys.getrecursionlimit()] *)
Definition recursion_limit : nat := 1000.

Definition ensure_headers (sheet_name : string) : M unit :=
  ensure_headers_at recursion_limit sheet_name.

(** [SheetsManager._lead_to_row] *)
Definition lead_to_row (lead : value) : M (list value) :=
  let! cells := lift (lead_cells lead) in
  fun w => (Ok (cells ++ [VStr (strftime "%m/%d/%Y %H:%M:%S" (clock w))]), w).

(** [SheetsManager.get_existing_lead_ids] *)
Definition get_existing_lead_ids (sheet_name : string) : M (gset string) :=
  except_HttpError
    (let! values := values_get sheet_name A_A in
     ret (list_to_set (omap head (drop 1 values))))
    (fun _ => ret ∅).

(** [x in s] for a set [s] of strings: [x] is hashed first. *)
Definition py_in (x : value) (s : gset string) : result bool :=
  match x with
  | VStr k => Ok (bool_decide (k ∈ s))
  | VNone | VBool _ | VInt _ => Ok false
  | VList _ | VDict _ => Raise TypeError
  end.

(** [[l for l in leads if l.get('Id') not in existing_ids]] *)
Fixpoint not_existing (existing_ids : gset string) (leads : list value)
  : result (list value) :=
  match leads with
  | [] => Ok []
  | l :: rest =>
      let* lead_id := py_get l "Id" VNone in
      let* known := py_in lead_id existing_ids in
      let* kept := not_existing existing_ids rest in
      Ok (if known then kept else l :: kept)
  end.

(** [[self._lead_to_row(lead) for lead in leads]] *)
Fixpoint lead_rows (leads : list value) : M (list (list value)) :=
  match leads with
  | [] => ret []
  | lead :: rest =>
      let! row := lead_to_row lead in
      let! rows := lead_rows rest in
      ret (row :: rows)
  end.

(** [SheetsManager.append_leads] *)
Definition append_leads (leads : list value) (sheet_name : string)
    (skip_duplicates : bool) : M Z :=
  let! _ := ensure_headers sheet_name in
  let! leads :=
    (if skip_duplicates then
       let! existing_ids := get_existing_lead_ids sheet_name in
       lift (not_existing existing_ids leads)
     else ret leads) in
  if bool_decide (leads = []) then ret 0
  else
    let! rows := lead_rows leads in
    except_HttpError
      (let! updated := values_append sheet_name A_U rows in
       ret (default (Z.of_nat (length rows)) updated))
      (fun _ => ret 0).

End Manager.

(** *** The table and the leads, seen from outside *)

(** A note entry as the lead source documents it. *)
Record note : Type := {
  ts : string;       (* "Created" *)
  text : string      (* "Note" *)
}.

Definition render (n : note) : string := "[" +:+ ts n +:+ "] " +:+ text n.

(** A value that reads as the note [n]: a dict whose two fields are the
    strings of [n]; a field that is absent reads as the empty string. *)
Definition reads_as (v : value) (n : note) : Prop :=
  exists nd, v = VDict nd
    /\ dict_get_default nd "Created" (VStr "") = VStr (ts n)
    /\ dict_get_default nd "Note" (VStr "") = VStr (text n).

Definition note_value (n : note) : value :=
  VDict [("Created", VStr (ts n)); ("Note", VStr (text n))].

(** The notes cell in the words of the specification: every entry,
    rendered, joined by [" | "]. *)
Definition notes_cell_spec (ns : list note) : string :=
  String.concat " | " (map render ns).

(** Cell A of a row. *)
Definition first_cell (row : list string) : string := default "" (head row).

(** The identifiers a table holds: the non-empty cells of column A below
    the first row, top down. *)
Definition data_ids (rows : list (list string)) : list string :=
  filter (fun s => s <> "") (map first_cell (drop 1 rows)).

(** Columns A to U of the first row. *)
Definition first_row (rows : list (list string)) : list string :=
  take 21 (default [] (head rows)).

(** The table once [_ensure_headers] has run: as it was when the first row
    has the headers, else with the headers written over columns A to U of
    the first row. *)
Definition installed (rows : list (list string)) : list (list string) :=
  if decide (first_row rows = HEADERS) then rows
  else overwrite_rows [HEADERS] rows.

Definition after_headers (name : string) (rows : list (list string))
    (w : store) : store :=
  if decide (first_row rows = HEADERS) then logged (CGet name A1_U1) w
  else with_tab name (overwrite_rows [HEADERS] rows)
         (logged (CUpdate name A1_U1 [map VStr HEADERS])
            (logged (CGet name A1_U1) w)).

(** The identifier of a lead, [l.get('Id')]. *)
Definition lead_id (l : value) : value :=
  match l with
  | VDict d => dict_get d "Id"
  | _ => VNone
  end.

(** [l.get('Id') not in existing_ids] for a lead whose identifier can be
    hashed. *)
Definition fresh (existing_ids : gset string) (l : value) : bool :=
  match lead_id l with
  | VStr k => bool_decide (k ∉ existing_ids)
  | _ => true
  end.

(** [l.get('Id') == k] *)
Definition has_id (k : string) (l : value) : bool :=
  match lead_id l with
  | VStr k' => String.eqb k' k
  | _ => false
  end.

(** The identifier of a lead as text; the empty string when the lead has
    none, or one that is no string. *)
Definition id_str (l : value) : string :=
  match lead_id l with
  | VStr k => k
  | _ => ""
  end.

(** The lead has a non-empty string as its identifier. *)
Definition keyed (l : value) : bool := negb (String.eqb (id_str l) "").

(** A lead that carries nothing but its identifier, and a store with one
    tab, for the examples. *)
Definition lead_of (k : string) : value := VDict [("Id", VStr k)].

Definition store_of (name : string) (rows : list (list string)) : store :=
  {| tabs := {[ name := rows ]}; outage := None; clock := 0; calls := [] |}.

Section Outside.
Context `{Builtins}.

(** The text row the service stores for a lead written at instant [t]. *)
Definition row_text (t : Z) (l : value) : option (list string) :=
  match lead_cells l with
  | Ok cells => mapM cell_text (cells ++ [VStr (strftime "%m/%d/%Y %H:%M:%S" t)])
  | Raise _ => None
  end.

(** A lead that can be written: a dict whose notes have the shape
    [_extract_notes] expects and whose cells the service accepts. *)
Definition writable (l : value) : bool :=
  match lead_cells l with
  | Ok cells => bool_decide (is_Some (mapM cell_text cells))
  | Raise _ => false
  end.

(** The row [_lead_to_row] builds at instant [t] for a writable lead. *)
Definition lead_row (t : Z) (l : value) : list value :=
  match lead_cells l with
  | Ok cells => cells ++ [VStr (strftime "%m/%d/%Y %H:%M:%S" t)]
  | Raise _ => []
  end.

Definition sheet_row (t : Z) (l : value) : list string :=
  default [] (row_text t l).

End Outside.

(** *** Clearing and replacing *)

Definition all_blank (row : list string) : bool := forallb blank_cell row.

(** A row whose cells in columns A to U have lost their values. *)
Definition blank_AU (row : list string) : list string :=
  if decide (length row <= 21)%nat then []
  else replicate 21 "" ++ drop 21 row.

(** [values().clear(range="...!A2:U")]: the cells of columns A to U below
    the first row lose their values; rows left without a value at the end
    of the tab are no rows of the table any more. *)
Definition values_clear (sheet_name : string) : M unit :=
  let! _ := send (CClear sheet_name) in
  let! rows := open_tab sheet_name in
  set_tab sheet_name
    (rstrip all_blank (take 1 rows ++ map blank_AU (drop 1 rows))).

(** The rows below the first row of tab [name]; none when the tab does not
    exist. *)
Definition data_rows (name : string) (w : store) : list (list string) :=
  drop 1 (default [] (tabs w !! name)).

(** The requests of [depth] rounds of [_ensure_headers] on a service that
    refuses every one with status 400. *)
Definition refused_rounds (name : string) (depth : nat) : list call :=
  concat (replicate depth [CGet name A1_U1; CAddSheet name]).

(** What a run of the second half of [append_leads] leaves behind: the
    rows [added] below the rows of the tab, as many as the count it
    returns, and none when it raises. *)
Definition outcome (name : string) (rows : list (list string)) (w : store)
    (r : result Z) (w' : store) (added : list (list string)) : Prop :=
  tabs w' !! name = Some (rows ++ added)
  /\ (forall other, other <> name -> tabs w' !! other = tabs w !! other)
  /\ outage w' = outage w /\ clock w' = clock w
  /\ Forall (fun row => length row = 21%nat) added
  /\ match r with
     | Ok n => n = Z.of_nat (length added)
     | Raise _ => added = []
     end.

Section Replace.
Context `{Builtins}.

(** A record [_lead_to_row] can turn into a row: an object whose notes
    [_extract_notes] can read. *)
Definition readable (l : value) : bool :=
  match lead_cells l with
  | Ok _ => true
  | Raise _ => false
  end.

(** A record whose identifier can be hashed: no list, no object. *)
Definition hashable_id (l : value) : bool :=
  match lead_id l with
  | VList _ | VDict _ => false
  | _ => true
  end.

(** [SheetsManager.replace_all_leads] *)
Definition replace_all_leads (leads : list value) (sheet_name : string) : M Z :=
  let! _ := except_HttpError (values_clear sheet_name) (fun _ => ret tt) in
  append_leads leads sheet_name false.

(** [append_leads] from [if not leads:] on. *)
Definition write_leads (leads : list value) (sheet_name : string) : M Z :=
  if bool_decide (leads = []) then ret 0
  else
    let! rows := lead_rows leads in
    except_HttpError
      (let! updated := values_append sheet_name A_U rows in
       ret (default (Z.of_nat (length rows)) updated))
      (fun _ => ret 0).

(** The leads [append_leads] is left with after [if skip_duplicates:]. *)
Definition kept_leads (leads : list value) (sheet_name : string)
    (skip_duplicates : bool) : M (list value) :=
  if skip_duplicates then
    let! existing_ids := get_existing_lead_ids sheet_name in
    lift (not_existing existing_ids leads)
  else ret leads.

(** [append_leads] from its second statement on. *)
Definition append_body (leads : list value) (sheet_name : string)
    (skip_duplicates : bool) : M Z :=
  let! leads := kept_leads leads sheet_name skip_duplicates in
  write_leads leads sheet_name.

End Replace.

End Sheets.

(** ** hd_api_client.py *)

Module Client.

(** The body of a lead lookup.  ["PageSize"] and ["StartRowNum"] travel as
    [str(page_size)] and [str(start_row)]; the model keeps the integers. *)
Record payload : Type := {
  PageSize : Z;
  Searchspec : string;
  StartRowNum : Z
}.

Inductive request : Type :=
| Get (url : string) (authorization : string)
    (* headers {"Authorization": ..., "Accept": "application/json"} *)
| Post (url : string) (appToken : value) (body : payload).
    (* headers {"appToken": ..., "Content-Type": ..., "Accept": ...} *)

Definition is_post (r : request) : bool :=
  match r with
  | Post _ _ _ => true
  | Get _ _ => false
  end.

(** The world outside the client: the clock and the requests sent so far,
    oldest first. *)
Record net : Type := {
  now : Z;               (* datetime.now(), an instant *)
  sent : list request
}.

(** The remote side.  [answer w r] is what the request [r], sent in world
    [w], comes back with once [raise_for_status()] and [response.json()]
    have run: the decoded body, or an exception ([RequestException] for a
    failed request, a bad status or a body that is no JSON).  [arrival w r]
    is the instant at which it comes back. *)
Class Remote : Type := {
  answer : net -> request -> result value;
  arrival : net -> request -> Z
}.

(** [HDLeadsClient]: the attributes [__init__] sets. *)
Record client : Type := {
  api_key : string;
  api_secret : string;
  mvendor_id : string;
  base_url : string;
  credentials_base64 : string;
  access_token : value;          (* None until a token is obtained *)
  token_expiry : option Z        (* None, or a datetime *)
}.

Definition set_access_token (c : client) (t : value) : client :=
  {| api_key := api_key c; api_secret := api_secret c;
     mvendor_id := mvendor_id c; base_url := base_url c;
     credentials_base64 := credentials_base64 c;
     access_token := t; token_expiry := token_expiry c |}.

Definition set_token_expiry (c : client) (e : Z) : client :=
  {| api_key := api_key c; api_secret := api_secret c;
     mvendor_id := mvendor_id c; base_url := base_url c;
     credentials_base64 := credentials_base64 c;
     access_token := access_token c; token_expiry := Some e |}.

Definition second : Z := 1000000.
Definition day : Z := 86400 * second.

(** Instants are microseconds from 1970-01-01 00:00:00 on the local clock.
    A [datetime] lies between 0001-01-01 00:00:00 and 9999-12-31
    23:59:59.999999. *)
Definition datetime_min : Z := -62135596800 * second.
Definition datetime_max : Z := 253402300800 * second - 1.

(** [timedelta(days=days, seconds=seconds)] for integers, in microseconds:
    the seconds are carried over into days, of which a [timedelta] holds at
    most 999999999 either way. *)
Definition timedelta (days seconds : Z) : result Z :=
  if Z.abs (days + seconds / 86400) <=? 999999999
  then Ok (days * day + seconds * second)
  else Raise OverflowError.

(** [t + delta] for a [datetime] and a [timedelta]; [t - delta] is
    [t + (-delta)]. *)
Definition datetime_add (t delta : Z) : result Z :=
  if (datetime_min <=? t + delta) && (t + delta <=? datetime_max)
  then Ok (t + delta)
  else Raise OverflowError.

(** [datetime.now() + timedelta(seconds=expires_in - 300)] at instant [t] *)
Definition expiry_instant (t expires_in : Z) : result Z :=
  let* delta := timedelta 0 (expires_in - 300) in
  datetime_add t delta.

(** [datetime.now() - timedelta(days=days_back)] at instant [t] *)
Definition start_instant (t days_back : Z) : result Z :=
  let* delta := timedelta days_back 0 in
  datetime_add t (- delta).

Section Methods.
Context {B : Builtins} {R : Remote}.

(** [HDLeadsClient.__init__] *)
Definition init (api_key api_secret mvendor_id : string) : client :=
  {| api_key := api_key; api_secret := api_secret; mvendor_id := mvendor_id;
     base_url := "https://api.hs.homedepot.com/iconx/v1";
     credentials_base64 := b64encode (api_key +:+ ":" +:+ api_secret);
     access_token := VNone; token_expiry := None |}.

(** [requests.get] or [requests.post], with [raise_for_status()] and
    [response.json()]. *)
Definition http (r : request) (w : net) : result value * net :=
  (answer w r, {| now := arrival w r; sent := sent w ++ [r] |}).

(** The test that opens [_get_access_token]. *)
Definition token_valid (c : client) (w : net) : bool :=
  match token_expiry c with
  | Some expiry => truthy (access_token c) && (now w <? expiry)
  | None => false
  end.

(** [HDLeadsClient._get_access_token] *)
Definition get_access_token (c : client) (w : net) : result value * client * net :=
  if token_valid c w then (Ok (access_token c), c, w)
  else
    let oauth_url := base_url c +:+ "/auth/accesstoken?grant_type=client_credentials" in
    let '(r, w) := http (Get oauth_url ("Basic " +:+ credentials_base64 c)) w in
    match r with
    | Raise RequestException => (Ok VNone, c, w)
    | Raise e => (Raise e, c, w)
    | Ok token_data =>
        match py_get token_data "access_token" VNone with
        | Raise e => (Raise e, c, w)
        | Ok token =>
            let c := set_access_token c token in
            match (let* x := py_get token_data "expires_in" (VInt 1800) in py_int x) with
            | Raise e => (Raise e, c, w)
            | Ok expires_in =>
                match expiry_instant (now w) expires_in with
                | Raise e => (Raise e, c, w)
                | Ok expiry =>
                    let c := set_token_expiry c expiry in
                    (Ok (access_token c), c, w)
                end
            end
        end
    end.

(** [HDLeadsClient._get_headers]: the value of the ["appToken"] header. *)
Definition get_headers (c : client) (w : net) : result value * client * net :=
  match get_access_token c w with
  | (Ok access_token, c, w) =>
      if negb (truthy access_token)
      then (Raise (Exception "Failed to obtain access token"), c, w)
      else (Ok access_token, c, w)
  | other => other
  end.

(** [x == s] for a string [s]. *)
Definition py_eq_str (x : value) (s : string) : bool :=
  match x with
  | VStr t => String.eqb t s
  | _ => false
  end.

(** What one turn of the loop does with the decoded body [data]. *)
Inductive turn : Type :=
| Break (all_leads : list value)
| Continue (all_leads : list value).

Definition page_turn (page_size : Z) (all_leads : list value) (data : value)
  : result turn :=
  let* leads_data := py_get data "SFILEADLOOKUPWS_Output" (VDict []) in
  let* bows := py_get leads_data "ListOfSfileadbows" (VDict []) in
  let* leads_list := py_get bows "Sfileadheaderws" (VList []) in
  let leads_list :=
    match leads_list with
    | VDict _ => VList [leads_list]
    | _ => leads_list
    end in
  if negb (truthy leads_list) then Ok (Break all_leads)
  else
    let* items := py_iter leads_list in
    let all_leads := all_leads ++ items in
    let* last_page := py_get leads_data "LastPage" VNone in
    if py_eq_str last_page "true" then Ok (Break all_leads)
    else
      let* n := py_len leads_list in
      if n <? page_size then Ok (Break all_leads)
      else Ok (Continue all_leads).

(** The [while True] loop of [fetch_leads].  [None]: the loop is still
    running after [fuel] turns. *)
Fixpoint fetch_loop (fuel : nat) (url : string) (headers : value)
    (searchspec : string) (page_size : Z)
    (all_leads : list value) (start_row : Z) (w : net)
  : option (result (list value) * net) :=
  match fuel with
  | O => None
  | S fuel' =>
      let body := {| PageSize := page_size; Searchspec := searchspec;
                     StartRowNum := start_row |} in
      let '(r, w) := http (Post url headers body) w in
      match r with
      | Raise RequestException => Some (Ok all_leads, w)
      | Raise e => Some (Raise e, w)
      | Ok data =>
          match page_turn page_size all_leads data with
          | Raise e => Some (Raise e, w)
          | Ok (Break all_leads) => Some (Ok all_leads, w)
          | Ok (Continue all_leads) =>
              fetch_loop fuel' url headers searchspec page_size
                all_leads (start_row + page_size) w
          end
      end
  end.

(** The search expression of [fetch_leads]. *)
Definition make_searchspec (c : client) (start_date : string)
    (status_filter : option string) : string :=
  let base := "([SFI MVendor #] = '" +:+ mvendor_id c
              +:+ "' AND [Created] >= '" +:+ start_date in
  match status_filter with
  | Some status =>
      if String.eqb status "" then base +:+ "')"
      else base +:+ "' AND [SFI Workflow Only Status ] = '" +:+ status +:+ "')"
  | None => base +:+ "')"
  end.

(** [HDLeadsClient.fetch_leads] *)
Definition fetch_leads (fuel : nat) (c : client) (days_back : Z)
    (status_filter : option string) (page_size : Z) (w : net)
  : option (result (list value) * client * net) :=
  let url := base_url c +:+ "/leads/lookup" in
  match get_headers c w with
  | (Raise e, c, w) => Some (Raise e, c, w)
  | (Ok headers, c, w) =>
      match start_instant (now w) days_back with
      | Raise e => Some (Raise e, c, w)
      | Ok start =>
          let start_date := strftime "%m/%d/%Y 00:00:00" start in
          let searchspec := make_searchspec c start_date status_filter in
          match fetch_loop fuel url headers searchspec page_size [] 0 w with
          | Some (r, w) => Some (r, c, w)
          | None => None
          end
      end
  end.

End Methods.

(** *** Page sources *)

(** A page as the lookup delivers it. *)
Record page : Type := {
  records : list value;
  last_page : value       (* the "LastPage" field *)
}.

Definition encode (p : page) : value :=
  VDict [("SFILEADLOOKUPWS_Output",
          VDict [("ListOfSfileadbows", VDict [("Sfileadheaderws", VList (records p))]);
                 ("LastPage", last_page p)])].

(** A token answer and a page that does not declare itself the last, for
    the examples. *)
Definition sample_token : value :=
  VDict [("access_token", VStr "token"); ("expires_in", VInt 1800)].

Definition sample_page (ids : list string) : page :=
  {| records := map Sheets.lead_of ids; last_page := VStr "false" |}.

(** The three conditions under which a page ends the pagination. *)
Definition stops (page_size : Z) (p : page) : bool :=
  bool_decide (records p = [])
  || py_eq_str (last_page p) "true"
  || (Z.of_nat (length (records p)) <? page_size).

(** The number of lookups sent so far. *)
Definition posts (w : net) : nat := length (List.filter is_post (sent w)).

(** A source that answers the token exchange with [token_data] and the
    k-th lookup with the k-th item of [script], whatever is asked; past the
    end of [script] a lookup fails. *)
Definition scripted (token_data : value) (script : list (result value)) : Remote :=
  {| answer w r :=
       match r with
       | Get _ _ => Ok token_data
       | Post _ _ _ => default (Raise RequestException) (script !! posts w)
       end;
     arrival w _ := now w |}.

(** A source that answers every lookup with the same body. *)
Definition constant (token_data : value) (data : value) : Remote :=
  {| answer w r :=
       match r with
       | Get _ _ => Ok token_data
       | Post _ _ _ => Ok data
       end;
     arrival w _ := now w |}.

(** A source that holds the records [rows] and answers a lookup with the
    rows its offset and page size select. *)
Definition dataset (token_data : value) (rows : list value) : Remote :=
  {| answer w r :=
       match r with
       | Get _ _ => Ok token_data
       | Post _ _ body =>
           Ok (encode {| records := take (Z.to_nat (PageSize body))
                                      (drop (Z.to_nat (StartRowNum body)) rows);
                         last_page := VStr "false" |})
       end;
     arrival w _ := now w |}.

(** The first [k] lookups of a pagination that starts at row [start]. *)
Definition lookups (url : string) (headers : value) (searchspec : string)
    (page_size start : Z) (k : nat) : list request :=
  map (fun i => Post url headers
                  {| PageSize := page_size; Searchspec := searchspec;
                     StartRowNum := start + Z.of_nat i * page_size |})
      (seq 0 k).

(** The world after the requests [rs] have gone out, with a source that
    answers at once. *)
Definition after (rs : list request) (w : net) : net :=
  {| now := now w; sent := sent w ++ rs |}.

(** A source is finite, with at most [N] rows: a lookup that starts at row
    [N] or beyond fails or is answered with a page of zero records. *)
Definition finite_source {R : Remote} (N : Z) : Prop :=
  forall w url headers body data,
    N <= StartRowNum body ->
    answer w (Post url headers body) = Ok data ->
    exists p, data = encode p /\ records p = [].

(** *** The other entry points *)

Section Wrappers.
Context {B : Builtins} {R : Remote}.

(** [HDLeadsClient.fetch_new_leads] *)
Definition fetch_new_leads (fuel : nat) (c : client) (days_back : Z) (w : net)
  : option (result (list value) * client * net) :=
  fetch_leads fuel c days_back (Some "New") 100 w.

(** [HDLeadsClient.fetch_confirmed_leads] *)
Definition fetch_confirmed_leads (fuel : nat) (c : client) (days_back : Z)
    (w : net) : option (result (list value) * client * net) :=
  fetch_leads fuel c days_back (Some "Confirmed") 100 w.

(** [HDLeadsClient.fetch_all_leads] *)
Definition fetch_all_leads (fuel : nat) (c : client) (days_back : Z) (w : net)
  : option (result (list value) * client * net) :=
  fetch_leads fuel c days_back None 100 w.

(** The token exchange [_get_access_token] sends. *)
Definition exchange (c : client) : request :=
  Get (base_url c +:+ "/auth/accesstoken?grant_type=client_credentials")
      ("Basic " +:+ credentials_base64 c).

(** The requests [_get_access_token] sends in world [w]. *)
Definition auth_requests (c : client) (w : net) : list request :=
  if token_valid c w then [] else [exchange c].

End Wrappers.

(** A page whose record list is one bare object. *)
Definition encode_bare (d : dict) (last_page : value) : value :=
  VDict [("SFILEADLOOKUPWS_Output",
          VDict [("ListOfSfileadbows", VDict [("Sfileadheaderws", VDict d)]);
                 ("LastPage", last_page)])].

(** A body in which [fetch_leads] does not find the two objects that wrap
    the records. *)
Definition no_envelope (data : value) : bool :=
  match data with
  | VDict d =>
      match dict_get_default d "SFILEADLOOKUPWS_Output" (VDict []) with
      | VDict ld =>
          match dict_get_default ld "ListOfSfileadbows" (VDict []) with
          | VDict _ => false
          | _ => true
          end
      | _ => true
      end
  | _ => true
  end.

End Client.

(** ** collect_leads.py *)

Module Collect.

(** The [headers] of [export_to_csv]. *)
Definition csv_headers : list string :=
  [ "Service Center ID"; "Order Number"; "Created Date"; "Status";
    "First Name"; "Last Name"; "Phone"; "Cell Phone"; "Email"; "Address";
    "City"; "State"; "Zip Code"; "Store Number"; "Store Name"; "Program";
    "MVendor"; "Description" ].

(** The [row] the loop of [export_to_csv] builds for one lead. *)
Definition csv_row (lead : value) : result (list value) :=
  match lead with
  | VDict d =>
      let get k := dict_get_default d k (VStr "") in
      Ok [ get "Id";
           get "MMSVCSServiceProviderOrderNumber";
           get "Created";
           get "SFIWorkflowOnlyStatus";
           get "ContactFirstName";
           get "ContactLastName";
           (if truthy (get "MMSVPreferredContactPhoneNumber")
            then get "MMSVPreferredContactPhoneNumber"
            else get "SFIContactHomePhone");
           get "CellularPhone";
           get "MainEmailAddress";
           get "MMSVSiteAddress";
           get "MMSVSiteCity";
           get "MMSVSiteState";
           get "MMSVSitePostalCode";
           get "MMSVStoreNumber";
           get "MMSVStoreName";
           get "SFIProgramGroupNameUnconstrained";
           get "SFIMVendor";
           get "Description" ]
  | _ => Raise AttributeError
  end.

(** The [for] loop of [export_to_csv]; [file] holds the rows handed to
    [writer.writerow] so far, oldest first.  The [with] block closes the
    file when the loop raises, so the rows written until then stay. *)
Fixpoint csv_loop (leads : list value) (file : list (list value))
  : result unit * list (list value) :=
  match leads with
  | [] => (Ok tt, file)
  | lead :: rest =>
      match csv_row lead with
      | Ok row => csv_loop rest (file ++ [row])
      | Raise e => (Raise e, file)
      end
  end.

(** [export_to_csv], for a file that can be opened: the outcome and the
    rows of the file. *)
Definition export_to_csv (leads : list value)
  : result unit * list (list value) :=
  csv_loop leads [map VStr csv_headers].

Definition is_dict (v : value) : bool :=
  match v with
  | VDict _ => true
  | _ => false
  end.

End Collect.

(** * Properties *)

Import Sheets.

(** ** Notes *)

Section Notes.
Context `{Builtins}.

Lemma note_entry_reads v n :
  reads_as v n ->
  note_entry v = Ok (if decide (text n = "") then None else Some (render n)).
Proof.
  intros (nd & -> & Hc & Hn).
  unfold note_entry; simpl. rewrite Hn, Hc; simpl.
  destruct (decide (text n = "")) as [->|Hne]; [reflexivity|].
  destruct (String.eqb_spec (text n) "") as [E|_]; [contradiction|reflexivity].
Qed.

Lemma notes_loop_reads items ns acc :
  Forall2 reads_as items ns ->
  notes_loop items acc
  = Ok (acc ++ map render (filter (fun n => text n <> "") ns)).
Proof.
  intros HF; revert acc.
  induction HF as [|v n items ns Hv _ IH]; intros acc; simpl.
  - now rewrite app_nil_r.
  - rewrite (note_entry_reads _ _ Hv); simpl.
    rewrite filter_cons.
    destruct (decide (text n = "")) as [E|E].
    + rewrite IH. destruct (decide (text n <> "")); [contradiction|reflexivity].
    + rewrite IH. destruct (decide (text n <> "")); [|contradiction].
      simpl. now rewrite <- app_assoc.
Qed.

(** C5, as the code has it: the notes cell joins, with [" | "], the
    [[timestamp] text] rendering of every note entry whose text is not
    empty, in the order of the source, be the entries a list or one bare
    object; a lead without notes (the key is absent, null, or an empty
    object) gets the empty string; and the two notes (t1, hello),
    (t2, world) give ["[t1] hello | [t2] world"]. *)
Theorem extract_notes_joins_nonempty :
  (forall (lead d : dict) (items : list value) (ns : list note),
      dict_get lead "ListOfSfinotesws" = VDict d ->
      dict_get_default d "Sfinotesws" (VList []) = VList items ->
      Forall2 reads_as items ns ->
      extract_notes lead
      = Ok (String.concat " | "
              (map render (filter (fun n => text n <> "") ns))))
  /\ (forall (lead d nd : dict) (n : note),
         dict_get lead "ListOfSfinotesws" = VDict d ->
         dict_get_default d "Sfinotesws" (VList []) = VDict nd ->
         reads_as (VDict nd) n ->
         extract_notes lead
         = Ok (String.concat " | "
                 (map render (filter (fun n => text n <> "") [n]))))
  /\ (forall lead : dict,
         truthy (dict_get lead "ListOfSfinotesws") = false ->
         extract_notes lead = Ok "")
  /\ extract_notes
       [("Id", VStr "1-AB");
        ("ListOfSfinotesws",
         VDict [("Sfinotesws",
                 VList [note_value {| ts := "t1"; text := "hello" |};
                        note_value {| ts := "t2"; text := "world" |}])])]
     = Ok "[t1] hello | [t2] world".
Proof.
  split; [|split; [|split]].
  - intros lead d items ns Hd Hitems HF.
    unfold extract_notes. rewrite Hd.
    destruct d as [|kv d'].
    + simpl. cbv in Hitems. injection Hitems as <-.
      inversion HF; subst. reflexivity.
    + change (truthy (VDict (kv :: d'))) with true. cbn [negb].
      cbn [py_get rbind]. rewrite Hitems. cbn [py_iter rbind].
      rewrite (notes_loop_reads _ _ [] HF). reflexivity.
  - intros lead d nd n Hd Hone Hn.
    unfold extract_notes. rewrite Hd.
    destruct d as [|kv d']; [discriminate Hone|].
    change (truthy (VDict (kv :: d'))) with true. cbn [negb].
    cbn [py_get rbind]. rewrite Hone. cbn [py_iter rbind].
    rewrite (notes_loop_reads [VDict nd] [n] []); [reflexivity|].
    now repeat constructor.
  - intros lead Hf. unfold extract_notes. now rewrite Hf.
  - reflexivity.
Qed.

End Notes.

Lemma extract_notes_joins_nonempty_witness :
  let lead := [("ListOfSfinotesws",
                VDict [("Sfinotesws",
                        VList [note_value {| ts := "t1"; text := "" |};
                               note_value {| ts := "t2"; text := "world" |}])])] in
  @extract_notes demo_builtins lead = Ok "[t2] world"
  /\ @extract_notes demo_builtins [("Id", VStr "7")] = Ok "".
Proof.
  split.
  - apply (proj1 (@extract_notes_joins_nonempty demo_builtins)
             _ [("Sfinotesws",
                 VList [note_value {| ts := "t1"; text := "" |};
                        note_value {| ts := "t2"; text := "world" |}])]
             [note_value {| ts := "t1"; text := "" |};
              note_value {| ts := "t2"; text := "world" |}]
             [ {| ts := "t1"; text := "" |}; {| ts := "t2"; text := "world" |} ]).
    + reflexivity.
    + reflexivity.
    + repeat constructor; eexists; (split; [reflexivity|split; reflexivity]).
  - apply (proj1 (proj2 (proj2 (@extract_notes_joins_nonempty demo_builtins)))).
    reflexivity.
Defined.

(** C5 as the specification words it: a note entry whose text is empty is
    left out of the cell, so the cell is not the join of every entry. *)
Lemma extract_notes_skips_empty_text :
  let ns := [ {| ts := "t1"; text := "" |}; {| ts := "t2"; text := "world" |} ] in
  let lead := [("ListOfSfinotesws",
                VDict [("Sfinotesws", VList (map note_value ns))])] in
  Forall2 reads_as (map note_value ns) ns
  /\ notes_cell_spec ns = "[t1]  | [t2] world"
  /\ @extract_notes demo_builtins lead = Ok "[t2] world"
  /\ @extract_notes demo_builtins lead <> Ok (notes_cell_spec ns).
Proof.
  split; [|split; [|split]].
  - repeat constructor; eexists; (split; [reflexivity|split; reflexivity]).
  - reflexivity.
  - reflexivity.
  - discriminate.
Qed.

(** ** The service *)

Section Service.

Lemma rstrip_drop_1 {A} (blank : A -> bool) (l : list A) :
  drop 1 (rstrip blank l) = rstrip blank (drop 1 l).
Proof.
  destruct l as [|x l]; [reflexivity|].
  simpl. rewrite drop_0.
  change (foldr _ [] l) with (rstrip blank l).
  destruct (rstrip blank l); [destruct (blank x)|]; reflexivity.
Qed.

Lemma omap_head_rstrip (l : list (list string)) :
  omap head (rstrip blank_row l) = omap head l.
Proof.
  unfold omap.
  induction l as [|r l IH]; [reflexivity|].
  simpl. change (foldr _ [] l) with (rstrip blank_row l).
  destruct (rstrip blank_row l) as [|r' l'] eqn:E.
  - simpl in IH. rewrite <- IH. destruct r; reflexivity.
  - rewrite <- IH. reflexivity.
Qed.

Lemma omap_head_column_A (rows : list (list string)) :
  omap head (map (fun r => rstrip blank_cell (take 1 r)) rows)
  = filter (fun s => s <> "") (map first_cell rows).
Proof.
  unfold omap.
  induction rows as [|r rows IH]; [reflexivity|].
  simpl. rewrite filter_cons, <- IH.
  destruct r as [|c r']; simpl.
  - reflexivity.
  - unfold blank_cell, first_cell; simpl.
    destruct (String.eqb_spec c "") as [->|Hc]; simpl.
    + reflexivity.
    + destruct (decide (c <> "")); [reflexivity|contradiction].
Qed.

(** The identifiers a read of column A delivers are those the table
    holds. *)
Lemma column_A_ids (rows : list (list string)) :
  omap head (drop 1 (view 1 rows)) = data_ids rows.
Proof.
  unfold view, data_ids.
  rewrite rstrip_drop_1, omap_head_rstrip, List.skipn_map.
  apply omap_head_column_A.
Qed.

Lemma values_get_ok w name r rows :
  outage w = None -> tabs w !! name = Some rows ->
  values_get name r w
  = (Ok (match r with
         | A1_U1 => view 21 (take 1 rows)
         | A_A => view 1 rows
         | A_U => view 21 rows
         end), logged (CGet name r) w).
Proof.
  intros Ho Ht. unfold values_get, open_tab, bind, send, service_up, ret, logged; simpl.
  rewrite Ho; simpl. now rewrite Ht.
Qed.

Lemma values_get_missing w name r :
  outage w = None -> tabs w !! name = None ->
  values_get name r w = (Raise (HttpError 400), logged (CGet name r) w).
Proof.
  intros Ho Ht. unfold values_get, open_tab, bind, send, service_up, ret, logged; simpl.
  rewrite Ho; simpl. now rewrite Ht.
Qed.

Lemma values_get_outage w name r status :
  outage w = Some status ->
  values_get name r w = (Raise (HttpError status), logged (CGet name r) w).
Proof.
  intros Ho. unfold values_get, open_tab, bind, send, service_up, ret, logged; simpl.
  now rewrite Ho.
Qed.

Lemma rstrip_prefix {A} (blank : A -> bool) (l : list A) :
  exists t, l = rstrip blank l ++ t.
Proof.
  induction l as [|x l [t IH]]; [now exists []|].
  simpl. change (foldr _ [] l) with (rstrip blank l).
  destruct (rstrip blank l) as [|y k] eqn:E.
  - destruct (blank x).
    + now exists (x :: l).
    + exists t. simpl in IH. now rewrite IH at 1.
  - exists t. simpl. now rewrite IH at 1.
Qed.

Lemma rstrip_headers (l : list string) :
  (length l <= 21)%nat ->
  rstrip blank_cell l = HEADERS <-> l = HEADERS.
Proof.
  intros Hlen; split.
  - intros E. destruct (rstrip_prefix blank_cell l) as [t Ht].
    rewrite E in Ht. rewrite Ht in Hlen |- *.
    rewrite length_app in Hlen. change (length HEADERS) with 21%nat in Hlen.
    destruct t; [now rewrite app_nil_r|simpl in Hlen; lia].
  - intros ->. reflexivity.
Qed.

(** The test of [_ensure_headers] on what a read of [A1:U1] returns. *)
Lemma header_test (rows : list (list string)) :
  let values := view 21 (take 1 rows) in
  bool_decide (values = []) || negb (bool_decide (head values = Some HEADERS))
  = negb (bool_decide (first_row rows = HEADERS)).
Proof.
  unfold first_row, view.
  destruct rows as [|r0 rest]; [reflexivity|].
  cbn [take firstn map head default]. rewrite take_0.
  cbn [map rstrip foldr].
  pose proof (rstrip_headers (take 21 r0)) as Hh.
  destruct (rstrip blank_cell (take 21 r0)) as [|c x] eqn:E.
  - simpl. rewrite bool_decide_eq_false_2; [reflexivity|].
    intros E'. apply Hh in E'; [discriminate|].
    rewrite length_take; lia.
  - cbn [blank_row head]. rewrite (bool_decide_eq_false_2 ([_] = [])) by discriminate.
    cbn [orb]. f_equal. apply bool_decide_ext.
    rewrite <- Hh by (rewrite length_take; lia).
    split; congruence.
Qed.

Lemma values_update_ok w name r values new rows :
  outage w = None -> tabs w !! name = Some rows ->
  body_text values = Some new ->
  values_update name r values w
  = (Ok tt, with_tab name (overwrite_rows new rows) (logged (CUpdate name r values) w)).
Proof.
  intros Ho Ht Hb.
  unfold values_update, open_tab, bind, send, service_up, ret, logged; simpl.
  rewrite Ho; simpl. rewrite Ht, Hb. reflexivity.
Qed.

Lemma values_append_ok w name r values new rows :
  outage w = None -> tabs w !! name = Some rows ->
  body_text values = Some new ->
  values_append name r values w
  = (Ok (Some (Z.of_nat (length values))),
     with_tab name (rows ++ new) (logged (CAppend name r values) w)).
Proof.
  intros Ho Ht Hb.
  unfold values_append, open_tab, bind, send, service_up, ret, logged; simpl.
  rewrite Ho; simpl. rewrite Ht, Hb. reflexivity.
Qed.

Lemma add_sheet_new w name :
  outage w = None -> tabs w !! name = None ->
  add_sheet name w = (Ok tt, with_tab name [] (logged (CAddSheet name) w)).
Proof.
  intros Ho Ht.
  unfold add_sheet, bind, send, service_up, logged; simpl.
  rewrite Ho; simpl. now rewrite Ht.
Qed.

End Service.

(** ** Existing identifiers *)

Lemma get_existing_lead_ids_ok w name rows :
  outage w = None -> tabs w !! name = Some rows ->
  get_existing_lead_ids name w
  = (Ok (list_to_set (data_ids rows)), logged (CGet name A_A) w).
Proof.
  intros Ho Ht.
  unfold get_existing_lead_ids, except_HttpError, bind.
  rewrite (values_get_ok _ _ _ _ Ho Ht). unfold ret.
  now rewrite column_A_ids.
Qed.

(** C6: on a tab that can be read, [get_existing_lead_ids] returns the set
    of the non-empty cells of column A below the first row, after one read
    request and no write; when the read fails (the service refuses every
    request, or the tab does not exist), it returns the empty set and does
    not raise. *)
Theorem get_existing_lead_ids_column_A :
  (forall (w : store) (name : string) (rows : list (list string)),
      outage w = None -> tabs w !! name = Some rows ->
      get_existing_lead_ids name w
      = (Ok (list_to_set (data_ids rows)), logged (CGet name A_A) w))
  /\ (forall (w : store) (name : string),
         is_Some (outage w) \/ tabs w !! name = None ->
         get_existing_lead_ids name w = (Ok ∅, logged (CGet name A_A) w)).
Proof.
  split.
  - apply get_existing_lead_ids_ok.
  - intros w name Hbad.
    unfold get_existing_lead_ids, except_HttpError, bind.
    destruct (outage w) as [status|] eqn:Ho.
    + now rewrite (values_get_outage _ _ _ _ Ho).
    + destruct Hbad as [[? [=]]|Ht].
      now rewrite (values_get_missing _ _ _ Ho Ht).
Qed.

(** ** Headers *)

Lemma overwrite_headers (rows : list (list string)) :
  overwrite_rows [HEADERS] rows
  = (HEADERS ++ drop 21 (default [] (head rows))) :: drop 1 rows.
Proof.
  destruct rows as [|r0 rest]; simpl.
  - reflexivity.
  - unfold overwrite. rewrite drop_0. now destruct rest.
Qed.

Lemma data_ids_installed (rows : list (list string)) :
  data_ids (installed rows) = data_ids rows.
Proof.
  unfold installed, data_ids.
  destruct (decide (first_row rows = HEADERS)); [reflexivity|].
  rewrite overwrite_headers. simpl. now rewrite drop_0.
Qed.

Lemma first_row_installed (rows : list (list string)) :
  first_row (installed rows) = HEADERS.
Proof.
  unfold installed.
  destruct (decide (first_row rows = HEADERS)) as [E|_]; [exact E|].
  rewrite overwrite_headers. reflexivity.
Qed.

Lemma after_headers_spec name rows w :
  outage w = None -> tabs w !! name = Some rows ->
  outage (after_headers name rows w) = None
  /\ clock (after_headers name rows w) = clock w
  /\ tabs (after_headers name rows w) !! name = Some (installed rows).
Proof.
  intros Ho Ht. unfold after_headers, installed.
  destruct (decide (first_row rows = HEADERS)); simpl.
  - auto.
  - rewrite lookup_insert_eq. auto.
Qed.

Lemma check_headers_ok w name rows :
  outage w = None -> tabs w !! name = Some rows ->
  check_headers name w = (Ok tt, after_headers name rows w).
Proof.
  intros Ho Ht. unfold check_headers, bind.
  rewrite (values_get_ok _ _ _ _ Ho Ht).
  pose proof (header_test rows) as Htest. cbv zeta in Htest. rewrite Htest.
  unfold after_headers.
  destruct (decide (first_row rows = HEADERS)) as [E|E].
  - rewrite bool_decide_eq_true_2 by exact E. reflexivity.
  - rewrite bool_decide_eq_false_2 by exact E. cbn [negb].
    now apply values_update_ok.
Qed.

Lemma ensure_headers_at_existing depth w name rows :
  outage w = None -> tabs w !! name = Some rows ->
  ensure_headers_at (S depth) name w = (Ok tt, after_headers name rows w).
Proof.
  intros Ho Ht. cbn [ensure_headers_at]. unfold except_HttpError.
  now rewrite (check_headers_ok _ _ _ Ho Ht).
Qed.

Lemma ensure_headers_existing w name rows :
  outage w = None -> tabs w !! name = Some rows ->
  ensure_headers name w = (Ok tt, after_headers name rows w).
Proof.
  intros Ho Ht. unfold ensure_headers.
  change recursion_limit with (S (Nat.pred recursion_limit)).
  now apply ensure_headers_at_existing.
Qed.

(** On a tab that does not exist the first read fails with status 400;
    the tab is created and the second run installs the headers. *)
Lemma ensure_headers_missing w name :
  outage w = None -> tabs w !! name = None ->
  ensure_headers name w
  = (Ok tt,
     after_headers name []
       (with_tab name [] (logged (CAddSheet name) (logged (CGet name A1_U1) w)))).
Proof.
  intros Ho Ht. unfold ensure_headers.
  change recursion_limit with (S (S (Nat.pred (Nat.pred recursion_limit)))).
  cbn [ensure_headers_at]. unfold except_HttpError at 1.
  unfold check_headers at 1, bind at 1.
  rewrite (values_get_missing _ _ _ Ho Ht).
  change (400 =? 400) with true. cbv iota.
  unfold bind at 1, create_sheet, except_HttpError at 1.
  rewrite add_sheet_new by (simpl; assumption).
  unfold ret.
  change (except_HttpError (check_headers name) _)
    with (ensure_headers_at (S (Nat.pred (Nat.pred recursion_limit))) name).
  apply ensure_headers_at_existing; simpl; [assumption|].
  apply lookup_insert_eq.
Qed.

(** C8: on a tab whose first row holds the canonical headers in columns A
    to U, [_ensure_headers] sends one read and no write, and the table
    stays as it was; on a tab whose first row is absent or differs, it
    sends one update of [A1:U1], after which the first row has the headers
    in columns A to U, the cells right of column U and every row below are
    as before, and the other tabs are untouched.  On a tab that does not
    exist yet it creates the tab and writes the headers as its first
    row. *)
Theorem ensure_headers_only_when_needed :
  (forall (w : store) (name : string) (rows : list (list string)),
      outage w = None -> tabs w !! name = Some rows ->
      (first_row rows = HEADERS ->
         ensure_headers name w = (Ok tt, logged (CGet name A1_U1) w)
         /\ tabs (logged (CGet name A1_U1) w) = tabs w
         /\ List.filter is_write (calls (logged (CGet name A1_U1) w))
            = List.filter is_write (calls w))
      /\ (first_row rows <> HEADERS ->
          ensure_headers name w
          = (Ok tt,
             with_tab name
               ((HEADERS ++ drop 21 (default [] (head rows))) :: drop 1 rows)
               (logged (CUpdate name A1_U1 [map VStr HEADERS])
                  (logged (CGet name A1_U1) w)))))
  /\ (forall (w : store) (name : string),
         outage w = None -> tabs w !! name = None ->
         exists w',
           ensure_headers name w = (Ok tt, w')
           /\ tabs w' = <[name := [HEADERS]]> (tabs w)
           /\ List.filter is_write (calls w')
              = List.filter is_write (calls w)
                ++ [CAddSheet name; CUpdate name A1_U1 [map VStr HEADERS]]).
Proof.
  split.
  - intros w name rows Ho Ht.
    rewrite (ensure_headers_existing _ _ _ Ho Ht). unfold after_headers.
    split; intros E.
    + destruct (decide (first_row rows = HEADERS)); [|contradiction].
      split; [reflexivity|]. split; [reflexivity|].
      simpl. rewrite List.filter_app. simpl. now rewrite app_nil_r.
    + destruct (decide (first_row rows = HEADERS)); [contradiction|].
      now rewrite overwrite_headers.
  - intros w name Ho Ht. eexists. split; [now apply ensure_headers_missing|].
    unfold after_headers.
    destruct (decide (first_row [] = HEADERS)) as [E|_]; [discriminate E|].
    split.
    + simpl. apply insert_insert_eq.
    + simpl. rewrite !List.filter_app. simpl.
      now rewrite !app_nil_r, <- app_assoc.
Qed.

(** ** Appending *)

Section Append.
Context `{Builtins}.

Lemma writable_inv l :
  writable l = true ->
  exists d cells txt,
    l = VDict d /\ lead_cells l = Ok cells
    /\ mapM cell_text cells = Some txt
    /\ head cells = Some (dict_get_default d "Id" (VStr "")).
Proof.
  unfold writable. destruct l as [| | | | |d]; try discriminate.
  unfold lead_cells. destruct (extract_notes d) as [notes|e]; [|discriminate].
  cbn [rbind]. intros Hw. apply bool_decide_eq_true_1 in Hw as [txt Htxt].
  eexists d, _, txt. repeat split; [exact Htxt].
Qed.

(** The identifier cell of a writable lead is no list and no dict. *)
Lemma writable_id_text d :
  writable (VDict d) = true ->
  is_Some (cell_text (dict_get_default d "Id" (VStr ""))).
Proof.
  intros Hw. destruct (writable_inv _ Hw) as (d' & cells & txt & [= <-] & _ & Htxt & Hhd).
  apply mapM_Some_1 in Htxt.
  destruct Htxt as [|c t cells' txt' Hc _]; [discriminate|].
  injection Hhd as ->. eauto.
Qed.

Lemma py_in_writable (E : gset string) d :
  writable (VDict d) = true ->
  py_in (dict_get_default d "Id" VNone) E = Ok (negb (fresh E (VDict d))).
Proof.
  intros Hw. pose proof (writable_id_text _ Hw) as [t Ht].
  unfold fresh, lead_id, dict_get, dict_get_default in *.
  destruct (assoc "Id" d) as [v|]; simpl in *; [|reflexivity].
  destruct v as [| | |k| |]; try discriminate; try reflexivity.
  simpl. f_equal.
  destruct (decide (k ∈ E)) as [Hin|Hin].
  - rewrite (bool_decide_eq_true_2 _ Hin).
    rewrite bool_decide_eq_false_2; [reflexivity|]. now intros ?.
  - rewrite (bool_decide_eq_false_2 _ Hin).
    now rewrite (bool_decide_eq_true_2 (k ∉ E)).
Qed.

Lemma not_existing_writable (E : gset string) leads :
  Forall (fun l => writable l = true) leads ->
  not_existing E leads = Ok (List.filter (fresh E) leads).
Proof.
  induction 1 as [|l leads Hl _ IH]; [reflexivity|].
  destruct (writable_inv _ Hl) as (d & _ & _ & -> & _).
  cbn [not_existing py_get rbind]. rewrite (py_in_writable E d Hl).
  cbn [rbind]. rewrite IH. cbn [rbind List.filter].
  now destruct (fresh E (VDict d)).
Qed.

Lemma Forall_writable_filter (f : value -> bool) leads :
  Forall (fun l => writable l = true) leads ->
  Forall (fun l => writable l = true) (List.filter f leads).
Proof.
  induction 1 as [|l leads Hl _ IH]; simpl; [constructor|].
  destruct (f l); [now constructor|assumption].
Qed.

Lemma lead_to_row_writable l w :
  writable l = true ->
  lead_to_row l w = (Ok (lead_row (clock w) l), w).
Proof.
  intros Hw. destruct (writable_inv _ Hw) as (d & cells & _ & _ & Hc & _).
  unfold lead_to_row, lead_row, bind, lift. now rewrite Hc.
Qed.

Lemma lead_rows_writable leads w :
  Forall (fun l => writable l = true) leads ->
  lead_rows leads w = (Ok (map (lead_row (clock w)) leads), w).
Proof.
  induction 1 as [|l leads Hl _ IH]; [reflexivity|].
  cbn [lead_rows map]. unfold bind at 1.
  rewrite (lead_to_row_writable _ _ Hl). unfold bind at 1. now rewrite IH.
Qed.

Lemma row_text_writable t l :
  writable l = true ->
  mapM cell_text (lead_row t l) = Some (sheet_row t l).
Proof.
  intros Hw. destruct (writable_inv _ Hw) as (d & cells & txt & _ & Hc & Htxt & _).
  unfold sheet_row, row_text, lead_row. rewrite Hc.
  assert (mapM cell_text (cells ++ [VStr (strftime "%m/%d/%Y %H:%M:%S" t)])
          = Some (txt ++ [strftime "%m/%d/%Y %H:%M:%S" t])) as ->; [|reflexivity].
  apply mapM_Some_2, Forall2_app.
  - now apply mapM_Some_1.
  - now repeat constructor.
Qed.

Lemma body_text_writable t leads :
  Forall (fun l => writable l = true) leads ->
  body_text (map (lead_row t) leads) = Some (map (sheet_row t) leads).
Proof.
  intros HF. apply mapM_Some_2.
  induction HF as [|l leads Hl _ IH]; simpl; constructor; [|exact IH].
  now apply row_text_writable.
Qed.

(** What [append_leads] does with writable leads on a tab that exists. *)
Lemma append_leads_run w name rows leads :
  outage w = None -> tabs w !! name = Some rows ->
  Forall (fun l => writable l = true) leads ->
  let new := List.filter (fresh (list_to_set (data_ids rows))) leads in
  let w2 := logged (CGet name A_A) (after_headers name rows w) in
  append_leads leads name true w
  = if bool_decide (new = []) then (Ok 0, w2)
    else (Ok (Z.of_nat (length new)),
          with_tab name (installed rows ++ map (sheet_row (clock w)) new)
            (logged (CAppend name A_U (map (lead_row (clock w)) new)) w2)).
Proof.
  intros Ho Ht HF new w2.
  destruct (after_headers_spec name rows w Ho Ht) as (Ho1 & Hc1 & Ht1).
  unfold append_leads. unfold bind at 1.
  rewrite (ensure_headers_existing _ _ _ Ho Ht).
  unfold bind at 1, bind at 1.
  rewrite (get_existing_lead_ids_ok _ _ _ Ho1 Ht1), data_ids_installed.
  unfold lift. rewrite (not_existing_writable _ _ HF). fold new. fold w2.
  destruct (bool_decide (new = [])) eqn:Hnew; [reflexivity|].
  assert (Forall (fun l => writable l = true) new) as HFn
    by now apply Forall_writable_filter.
  unfold bind at 1. rewrite (lead_rows_writable _ _ HFn).
  unfold except_HttpError, bind.
  assert (clock w2 = clock w) as -> by exact Hc1.
  rewrite (values_append_ok w2 name A_U (map (lead_row (clock w)) new)
             (map (sheet_row (clock w)) new) (installed rows));
    [|exact Ho1|exact Ht1|now apply body_text_writable].
  unfold ret. simpl default. now rewrite length_map.
Qed.

(** C1: on a tab that exists, with the service up and every record
    writable, [append_leads] with [skip_duplicates=True] writes the rows of
    exactly the records whose identifier is not among the identifiers [E]
    of the table, in the order of the input and below the rows of the
    table, in one append request (none when no record is left), and
    returns their number.  With identifiers A, B in the table and records
    B, C, D it writes the rows of C and D, in that order, and returns 2. *)
Theorem append_leads_skips_existing :
  (forall (w : store) (name : string) (rows : list (list string))
          (leads : list value),
      outage w = None -> tabs w !! name = Some rows ->
      Forall (fun l => writable l = true) leads ->
      let E : gset string := list_to_set (data_ids rows) in
      let new := List.filter (fresh E) leads in
      exists w',
        append_leads leads name true w = (Ok (Z.of_nat (length new)), w')
        /\ tabs w' !! name
           = Some (installed rows ++ map (sheet_row (clock w)) new)
        /\ List.filter is_write (calls w')
           = List.filter is_write (calls (after_headers name rows w))
             ++ (if bool_decide (new = []) then []
                 else [CAppend name A_U (map (lead_row (clock w)) new)]))
  /\ (let rows := [HEADERS; ["A"; "7001"]; ["B"; "7002"]] in
      let w := store_of "Leads" rows in
      let out := append_leads [lead_of "B"; lead_of "C"; lead_of "D"] "Leads" true w in
      data_ids rows = ["A"; "B"]
      /\ fst out = Ok 2
      /\ tabs (snd out) !! "Leads"
         = Some (rows ++ [sheet_row 0 (lead_of "C"); sheet_row 0 (lead_of "D")])
      /\ List.filter is_write (calls (snd out))
         = [CAppend "Leads" A_U [lead_row 0 (lead_of "C"); lead_row 0 (lead_of "D")]]).
Proof.
  split.
  - intros w name rows leads Ho Ht HF E new.
    pose proof (append_leads_run w name rows leads Ho Ht HF) as Hrun.
    cbv zeta in Hrun. fold E in Hrun. fold new in Hrun.
    destruct (after_headers_spec name rows w Ho Ht) as (_ & _ & Ht1).
    destruct (bool_decide (new = [])) eqn:Hnew.
    + apply bool_decide_eq_true_1 in Hnew.
      eexists; split; [rewrite Hrun, Hnew; reflexivity|].
      rewrite Hnew. simpl. rewrite !app_nil_r. split; [exact Ht1|].
      rewrite List.filter_app. simpl. now rewrite app_nil_r.
    + eexists; split; [exact Hrun|]. simpl. split.
      * apply lookup_insert_eq.
      * rewrite !List.filter_app. simpl. now rewrite app_nil_r.
  - vm_compute. repeat split.
Qed.

(** C9: records of the input that share an identifier [k] the table does
    not hold are all written, as often and in the order in which they come:
    the filter looks at the identifiers of the table read before the
    write, never at the records of the batch. *)
Theorem append_leads_keeps_batch_duplicates :
  forall (w : store) (name : string) (rows : list (list string))
         (leads : list value) (k : string),
    outage w = None -> tabs w !! name = Some rows ->
    Forall (fun l => writable l = true) leads ->
    k ∉ data_ids rows ->
    let E : gset string := list_to_set (data_ids rows) in
    let new := List.filter (fresh E) leads in
    exists w',
      append_leads leads name true w = (Ok (Z.of_nat (length new)), w')
      /\ tabs w' !! name
         = Some (installed rows ++ map (sheet_row (clock w)) new)
      /\ List.filter (has_id k) new = List.filter (has_id k) leads.
Proof.
  intros w name rows leads k Ho Ht HF Hk E new.
  pose proof (append_leads_run w name rows leads Ho Ht HF) as Hrun.
  cbv zeta in Hrun. fold E in Hrun. fold new in Hrun.
  destruct (after_headers_spec name rows w Ho Ht) as (_ & _ & Ht1).
  assert (List.filter (has_id k) new = List.filter (has_id k) leads) as Hsame.
  { subst new. clear -Hk. induction leads as [|l leads IH]; [reflexivity|].
    simpl. destruct (fresh E l) eqn:Hf; simpl; [now rewrite IH|].
    destruct (has_id k l) eqn:Hid; [|exact IH].
    exfalso. unfold fresh, has_id in *.
    destruct (lead_id l) as [| | |k'| |]; try discriminate.
    apply String.eqb_eq in Hid as ->.
    apply bool_decide_eq_false_1 in Hf. apply Hf.
    subst E. now rewrite elem_of_list_to_set. }
  destruct (bool_decide (new = [])) eqn:Hnew.
  - apply bool_decide_eq_true_1 in Hnew.
    eexists; split; [rewrite Hrun, Hnew; reflexivity|].
    split; [|exact Hsame]. rewrite Hnew. simpl. now rewrite app_nil_r.
  - eexists; split; [exact Hrun|]. split; [|exact Hsame].
    simpl. apply lookup_insert_eq.
Qed.

Lemma installed_cons rows :
  exists r rest, installed rows = r :: rest.
Proof.
  unfold installed. destruct (decide (first_row rows = HEADERS)) as [E|_].
  - destruct rows as [|r rest]; [discriminate E|eauto].
  - rewrite overwrite_headers. eauto.
Qed.

Lemma data_ids_below rows extra :
  data_ids (installed rows ++ extra)
  = data_ids rows ++ filter (fun s => s <> "") (map first_cell extra).
Proof.
  rewrite <- (data_ids_installed rows).
  destruct (installed_cons rows) as (r & rest & ->).
  unfold data_ids. simpl. rewrite !drop_0, map_app. apply filter_app.
Qed.

Lemma first_row_below rows extra :
  first_row (installed rows ++ extra) = HEADERS.
Proof.
  rewrite <- (first_row_installed rows).
  now destruct (installed_cons rows) as (r & rest & ->).
Qed.

Lemma first_cell_sheet_row t l :
  writable l = true -> keyed l = true ->
  first_cell (sheet_row t l) = id_str l.
Proof.
  intros Hw Hk.
  pose proof (row_text_writable t l Hw) as Hrow.
  destruct (writable_inv _ Hw) as (d & cells & txt & -> & Hc & _ & Hhd).
  unfold lead_row in Hrow. rewrite Hc in Hrow.
  destruct cells as [|c cells]; [discriminate|]. injection Hhd as ->.
  unfold keyed, id_str, lead_id, dict_get, dict_get_default in *.
  destruct (assoc "Id" d) as [v|]; [|discriminate].
  cbn [default] in *. destruct v as [| | |k| |]; try discriminate.
  apply mapM_Some_1 in Hrow. inversion Hrow as [|? t0 ? ? Hc0]; subst.
  injection Hc0 as <-. reflexivity.
Qed.

Lemma ids_of_written t leads :
  Forall (fun l => writable l = true) leads ->
  Forall (fun l => keyed l = true) leads ->
  filter (fun s => s <> "") (map first_cell (map (sheet_row t) leads))
  = map id_str leads.
Proof.
  induction 1 as [|l leads Hw _ IH]; intros Hk; [reflexivity|].
  apply Forall_cons in Hk as [Hk Hks].
  cbn [map]. rewrite filter_cons, (first_cell_sheet_row t l Hw Hk), (IH Hks).
  unfold keyed in Hk. destruct (String.eqb_spec (id_str l) ""); [discriminate|].
  destruct (decide (id_str l <> "")); [reflexivity|contradiction].
Qed.

Lemma fresh_keyed (E : gset string) l :
  keyed l = true -> fresh E l = bool_decide (id_str l ∉ E).
Proof.
  unfold keyed, fresh, id_str.
  destruct (lead_id l); try discriminate. reflexivity.
Qed.

Lemma Forall_keyed_filter (f : value -> bool) leads :
  Forall (fun l => keyed l = true) leads ->
  Forall (fun l => keyed l = true) (List.filter f leads).
Proof.
  induction 1 as [|l leads Hl _ IH]; simpl; [constructor|].
  destruct (f l); [now constructor|assumption].
Qed.

Lemma filter_none (f : value -> bool) leads :
  Forall (fun l => f l = false) leads -> List.filter f leads = [].
Proof.
  induction 1 as [|l leads Hl _ IH]; simpl; [reflexivity|now rewrite Hl].
Qed.

(** After a first run every keyed lead of the batch has its identifier in
    the table: it was there, or its row has been written. *)
Lemma ids_after_first_run t rows leads :
  Forall (fun l => writable l = true) leads ->
  Forall (fun l => keyed l = true) leads ->
  let E : gset string := list_to_set (data_ids rows) in
  let new := List.filter (fresh E) leads in
  let rows1 := installed rows ++ map (sheet_row t) new in
  data_ids rows1 = data_ids rows ++ map id_str new
  /\ Forall (fun l => id_str l ∈ data_ids rows1) leads.
Proof.
  intros Hw Hk E new rows1.
  assert (data_ids rows1 = data_ids rows ++ map id_str new) as Hids.
  { subst rows1. rewrite data_ids_below, ids_of_written; [reflexivity| |].
    - now apply Forall_writable_filter.
    - now apply Forall_keyed_filter. }
  split; [exact Hids|].
  rewrite Hids. apply Forall_forall. intros l Hl.
  rewrite Forall_forall in Hk. specialize (Hk l Hl).
  apply elem_of_app.
  destruct (fresh E l) eqn:Hf.
  - right. apply list_elem_of_In, List.in_map, List.filter_In.
    split; [now apply list_elem_of_In|exact Hf].
  - left. rewrite (fresh_keyed E l Hk) in Hf.
    apply bool_decide_eq_false_1 in Hf.
    destruct (decide (id_str l ∈ data_ids rows)) as [Hin|Hnin]; [exact Hin|].
    exfalso. apply Hf. subst E. now rewrite elem_of_list_to_set.
Qed.

Lemma NoDup_map_filter {A B} (f : A -> B) (p : A -> bool) (l : list A) :
  NoDup (map f l) -> NoDup (map f (List.filter p l)).
Proof.
  induction l as [|x l IH]; simpl; [trivial|].
  intros Hnd. apply NoDup_cons in Hnd as [Hx Hnd].
  destruct (p x); [|now apply IH].
  simpl. apply NoDup_cons. split; [|now apply IH].
  intros Hin. apply Hx.
  apply list_elem_of_In, List.in_map_iff in Hin as (y & Hy & Hin).
  apply List.filter_In in Hin as [Hin _].
  apply list_elem_of_In, List.in_map_iff. eauto.
Qed.

(** C2, as the code has it: for writable records whose identifiers are
    non-empty strings, a second [append_leads] with the same list and
    [skip_duplicates=True] writes nothing: it returns 0 and leaves the
    table as the first call left it, with every identifier of the list in
    it.  When, besides, the identifiers of the list are pairwise distinct
    and the table held no identifier twice, each identifier of the list is
    in the table exactly once. *)
Theorem append_leads_twice :
  forall (w : store) (name : string) (rows : list (list string))
         (leads : list value),
    outage w = None -> tabs w !! name = Some rows ->
    Forall (fun l => writable l = true) leads ->
    Forall (fun l => keyed l = true) leads ->
    exists n w1 w2 rows2,
      append_leads leads name true w = (Ok n, w1)
      /\ append_leads leads name true w1 = (Ok 0, w2)
      /\ tabs w2 = tabs w1
      /\ List.filter is_write (calls w2) = List.filter is_write (calls w1)
      /\ tabs w2 !! name = Some rows2
      /\ Forall (fun l => id_str l ∈ data_ids rows2) leads
      /\ (NoDup (map id_str leads) -> NoDup (data_ids rows) ->
          Forall (fun l => count_occ string_dec (data_ids rows2) (id_str l) = 1%nat)
                 leads).
Proof.
  intros w name rows leads Ho Ht Hw Hk.
  set (E := list_to_set (data_ids rows) : gset string).
  set (new := List.filter (fresh E) leads).
  set (rows1 := installed rows ++ map (sheet_row (clock w)) new).
  destruct (ids_after_first_run (clock w) rows leads Hw Hk) as [Hids Hin].
  fold E new rows1 in Hids, Hin.
  destruct (after_headers_spec name rows w Ho Ht) as (Ho1 & _ & Ht1).
  assert (exists n w1, append_leads leads name true w = (Ok n, w1)
                       /\ outage w1 = None /\ tabs w1 !! name = Some rows1)
    as (n & w1 & Hrun1 & Ho' & Ht').
  { pose proof (append_leads_run w name rows leads Ho Ht Hw) as Hrun.
    cbv zeta in Hrun. fold E new in Hrun.
    destruct (bool_decide (new = [])) eqn:Hnew.
    - apply bool_decide_eq_true_1 in Hnew.
      eexists _, _; split; [exact Hrun|]. split; [exact Ho1|].
      subst rows1. rewrite Hnew. simpl. now rewrite app_nil_r.
    - eexists _, _; split; [exact Hrun|]. split; [exact Ho1|].
      simpl. apply lookup_insert_eq. }
  pose proof (append_leads_run w1 name rows1 leads Ho' Ht' Hw) as Hrun2.
  cbv zeta in Hrun2.
  rewrite (filter_none (fresh (list_to_set (data_ids rows1))) leads) in Hrun2.
  2:{ apply Forall_forall. intros l Hl.
      rewrite Forall_forall in Hk, Hin.
      rewrite (fresh_keyed _ l (Hk l Hl)).
      apply bool_decide_eq_false_2. intros Hnot. apply Hnot.
      rewrite elem_of_list_to_set. now apply Hin. }
  rewrite bool_decide_eq_true_2 in Hrun2 by reflexivity.
  unfold after_headers in Hrun2.
  assert (first_row rows1 = HEADERS) as Hfirst by apply first_row_below.
  destruct (decide (first_row rows1 = HEADERS)); [|contradiction].
  exists n, w1, (logged (CGet name A_A) (logged (CGet name A1_U1) w1)), rows1.
  split; [exact Hrun1|]. split; [exact Hrun2|].
  split; [reflexivity|]. split.
  { simpl. rewrite !List.filter_app. simpl. now rewrite !app_nil_r. }
  split; [exact Ht'|]. split; [exact Hin|].
  intros Hnd Hndrows.
  assert (NoDup (data_ids rows1)) as Hnd1.
  { rewrite Hids. apply NoDup_app. split; [exact Hndrows|]. split.
    - intros x Hx Hx'.
      apply list_elem_of_In, List.in_map_iff in Hx' as (l & <- & Hl).
      apply List.filter_In in Hl as [Hl Hf].
      rewrite Forall_forall in Hk.
      rewrite (fresh_keyed E l) in Hf by (apply Hk; now apply list_elem_of_In).
      apply bool_decide_eq_true_1 in Hf. apply Hf.
      subst E. now rewrite elem_of_list_to_set.
    - now apply NoDup_map_filter. }
  apply Forall_forall. intros l Hl.
  rewrite Forall_forall in Hin.
  apply NoDup_ListNoDup in Hnd1.
  apply (proj1 (List.NoDup_count_occ' string_dec (data_ids rows1)) Hnd1).
  apply list_elem_of_In. now apply Hin.
Qed.

End Append.

(** ** The token *)

Import Client.

(** The two computations on instants succeed exactly within the range of
    [timedelta] and [datetime], and raise [OverflowError] outside. *)
Lemma start_instant_spec t days_back start :
  start_instant t days_back = Ok start
  <-> Z.abs days_back <= 999999999
      /\ datetime_min <= t - days_back * day <= datetime_max
      /\ start = t - days_back * day.
Proof.
  unfold start_instant, timedelta, datetime_add.
  change (0 / 86400) with 0. rewrite Z.add_0_r.
  destruct (Z.leb_spec (Z.abs days_back) 999999999) as [Hd|Hd]; cbn [rbind].
  - replace (t + - (days_back * day + 0 * second)) with (t - days_back * day)
      by lia.
    destruct (Z.leb_spec datetime_min (t - days_back * day)) as [Hlo|Hlo];
      destruct (Z.leb_spec (t - days_back * day) datetime_max) as [Hhi|Hhi];
      cbn [andb]; split; try discriminate; try (intros (_ & ? & _); lia).
    + intros [= <-]. auto.
    + now intros (_ & _ & ->).
  - split; [discriminate|]. intros (? & _). lia.
Qed.

Lemma expiry_instant_spec t expires_in expiry :
  expiry_instant t expires_in = Ok expiry
  <-> Z.abs ((expires_in - 300) / 86400) <= 999999999
      /\ datetime_min <= t + (expires_in - 300) * second <= datetime_max
      /\ expiry = t + (expires_in - 300) * second.
Proof.
  unfold expiry_instant, timedelta, datetime_add. rewrite Z.add_0_l.
  destruct (Z.leb_spec (Z.abs ((expires_in - 300) / 86400)) 999999999)
    as [Hd|Hd]; cbn [rbind].
  - replace (t + (0 * day + (expires_in - 300) * second))
      with (t + (expires_in - 300) * second) by lia.
    destruct (Z.leb_spec datetime_min (t + (expires_in - 300) * second))
      as [Hlo|Hlo];
      destruct (Z.leb_spec (t + (expires_in - 300) * second) datetime_max)
        as [Hhi|Hhi];
      cbn [andb]; split; try discriminate; try (intros (_ & ? & _); lia).
    + intros [= <-]. auto.
    + now intros (_ & _ & ->).
  - split; [discriminate|]. intros (? & _). lia.
Qed.

Lemma start_instant_raises t days_back e :
  start_instant t days_back = Raise e -> e = OverflowError.
Proof.
  unfold start_instant, timedelta, datetime_add.
  destruct (_ <=? 999999999); cbn [rbind]; [|now intros [= <-]].
  destruct (_ && _); [discriminate|now intros [= <-]].
Qed.

Lemma expiry_instant_raises t expires_in e :
  expiry_instant t expires_in = Raise e -> e = OverflowError.
Proof.
  unfold expiry_instant, timedelta, datetime_add.
  destruct (_ <=? 999999999); cbn [rbind]; [|now intros [= <-]].
  destruct (_ && _); [discriminate|now intros [= <-]].
Qed.

Section Token.
Context {B : Builtins} {R : Remote}.

Lemma token_valid_iff c w :
  token_valid c w = true
  <-> exists expiry, token_expiry c = Some expiry
                     /\ truthy (access_token c) = true /\ now w < expiry.
Proof.
  unfold token_valid. destruct (token_expiry c) as [e|].
  - rewrite andb_true_iff, Z.ltb_lt. split.
    + intros [Ht Hlt]. eauto.
    + intros (e' & [= <-] & Ht & Hlt). auto.
  - split; [discriminate|]. now intros (e' & [=] & _).
Qed.

Lemma get_access_token_hit c w expiry :
  truthy (access_token c) = true -> token_expiry c = Some expiry ->
  now w < expiry ->
  get_access_token c w = (Ok (access_token c), c, w).
Proof.
  intros Ht He Hlt. unfold get_access_token.
  now rewrite (proj2 (token_valid_iff c w)) by eauto.
Qed.

(** C7: with a cached token and an expiry instant (the nominal expiry less
    the margin of 300 seconds, as stored) that has not passed,
    [_get_access_token] returns the cached token and leaves the client and
    the world as they are, whatever the remote side would answer: no
    request is sent.  So after a call that returned a token, a call made
    before the stored expiry returns the same token without an exchange. *)
Theorem get_access_token_cached :
  (forall (c : client) (w : net) (expiry : Z),
      truthy (access_token c) = true -> token_expiry c = Some expiry ->
      now w < expiry ->
      get_access_token c w = (Ok (access_token c), c, w))
  /\ (forall (c c1 : client) (w w1 : net) (token : value),
         get_access_token c w = (Ok token, c1, w1) ->
         truthy token = true ->
         exists expiry,
           access_token c1 = token /\ token_expiry c1 = Some expiry
           /\ forall w2, now w2 < expiry ->
                get_access_token c1 w2 = (Ok token, c1, w2)).
Proof.
  split; [exact get_access_token_hit|].
  intros c c1 w w1 token Hcall Htruthy.
  unfold get_access_token in Hcall.
  destruct (token_valid c w) eqn:Hv.
  - injection Hcall as <- <- <-.
    apply token_valid_iff in Hv as (e & He & Ht & Hlt).
    exists e. repeat split; [exact He|].
    intros w2 Hw2. now apply (get_access_token_hit c w2 e).
  - unfold http in Hcall. cbn [fst snd] in Hcall.
    destruct (answer w (Get _ _)) as [token_data|e].
    + destruct (py_get token_data "access_token" VNone) as [tok|e];
        [|discriminate].
      destruct (rbind _ _) as [expires_in|e]; [|discriminate].
      destruct (expiry_instant _ _) as [expiry|e]; [|discriminate].
      injection Hcall as <- <- <-.
      eexists. repeat split.
      intros w2 Hw2.
      apply (get_access_token_hit
               (set_token_expiry (set_access_token c tok) _) w2 _ Htruthy eq_refl).
      exact Hw2.
    + destruct e; try discriminate.
      injection Hcall as <- <- <-. discriminate.
Qed.

Lemma get_access_token_posts c w r c' w' :
  get_access_token c w = (r, c', w') -> posts w' = posts w.
Proof.
  unfold get_access_token.
  destruct (token_valid c w); [now intros [= _ _ <-]|].
  unfold http, posts. cbn [fst snd].
  assert (forall g u, length (List.filter is_post (sent w ++ [Get g u]))
                      = length (List.filter is_post (sent w))) as Hpost.
  { intros. rewrite List.filter_app. simpl. now rewrite app_nil_r. }
  destruct (answer w (Get _ _)) as [token_data|e].
  - destruct (py_get token_data "access_token" VNone) as [tok|e].
    + destruct (rbind _ _) as [expires_in|e];
        [destruct (expiry_instant _ _) as [expiry|e]|];
        intros [= _ _ <-]; apply Hpost.
    + intros [= _ _ <-]; apply Hpost.
  - destruct e; intros [= _ _ <-]; apply Hpost.
Qed.

Lemma get_headers_posts c w r c' w' :
  get_headers c w = (r, c', w') -> posts w' = posts w.
Proof.
  unfold get_headers.
  destruct (get_access_token c w) as [[r0 c0] w0] eqn:Hcall.
  apply get_access_token_posts in Hcall.
  destruct r0 as [tok|e].
  - destruct (negb (truthy tok)); now intros [= _ _ <-].
  - now intros [= _ _ <-].
Qed.

Lemma get_access_token_base_url c w r c' w' :
  get_access_token c w = (r, c', w') -> base_url c' = base_url c.
Proof.
  unfold get_access_token.
  destruct (token_valid c w); [now intros [= _ <- _]|].
  unfold http. cbn [fst snd].
  destruct (answer w (Get _ _)) as [token_data|e].
  - destruct (py_get token_data "access_token" VNone) as [tok|e].
    + destruct (rbind _ _) as [expires_in|e];
        [destruct (expiry_instant _ _) as [expiry|e]|]; now intros [= _ <- _].
    + now intros [= _ <- _].
  - destruct e; now intros [= _ <- _].
Qed.

Lemma get_headers_base_url c w r c' w' :
  get_headers c w = (r, c', w') -> base_url c' = base_url c.
Proof.
  unfold get_headers.
  destruct (get_access_token c w) as [[r0 c0] w0] eqn:Hcall.
  apply get_access_token_base_url in Hcall.
  destruct r0 as [tok|e].
  - destruct (negb (truthy tok)); now intros [= _ <- _].
  - now intros [= _ <- _].
Qed.

End Token.

(** ** Pagination *)

Section Pagination.
Context {B : Builtins}.

(** A turn of the loop on a page: it stops on the three conditions, and
    the records of the page are taken over in either case. *)
Lemma page_turn_encode page_size acc p :
  page_turn page_size acc (encode p)
  = Ok (if stops page_size p then Break (acc ++ records p)
        else Continue (acc ++ records p)).
Proof.
  unfold page_turn, encode, stops. simpl.
  destruct (records p) as [|r rs]; simpl; [now rewrite app_nil_r|].
  change (dict_get_default _ "LastPage" VNone) with (last_page p).
  destruct (py_eq_str (last_page p) "true"); [reflexivity|]. cbn [orb].
  now destruct (_ <? _).
Qed.

Lemma lookups_S url headers spec page_size start k :
  lookups url headers spec page_size start (S k)
  = Post url headers {| PageSize := page_size; Searchspec := spec;
                        StartRowNum := start |}
    :: lookups url headers spec page_size (start + page_size) k.
Proof.
  unfold lookups. cbn [seq map]. f_equal.
  - do 2 f_equal. lia.
  - rewrite <- seq_shift, List.map_map. apply List.map_ext.
    intros i. do 2 f_equal. lia.
Qed.

Lemma posts_after_post w url headers body :
  posts (after [Post url headers body] w) = S (posts w).
Proof.
  unfold posts, after. cbn [sent]. rewrite List.filter_app, length_app.
  simpl. lia.
Qed.

Lemma after_after rs rs' w : after rs' (after rs w) = after (rs ++ rs') w.
Proof. unfold after. cbn [now sent]. now rewrite app_assoc. Qed.

Lemma after_nil w : after [] w = w.
Proof. destruct w. unfold after. cbn [now sent]. now rewrite app_nil_r. Qed.

(** With a scripted source, the loop walks through pages that do not stop
    it: one lookup each, the offset moved on by [page_size], the records
    added at the end. *)
Lemma fetch_loop_pages token_data pages :
  forall done item rest url headers spec page_size acc start w fuel,
    posts w = length done ->
    Forall (fun p => stops page_size p = false) pages ->
    let script := done ++ map (fun p => Ok (encode p)) pages ++ item :: rest in
    fetch_loop (R := scripted token_data script) (length pages + fuel)
      url headers spec page_size acc start w
    = fetch_loop (R := scripted token_data script) fuel
        url headers spec page_size
        (acc ++ concat (map records pages))
        (start + Z.of_nat (length pages) * page_size)
        (after (lookups url headers spec page_size start (length pages)) w).
Proof.
  induction pages as [|p pages IH];
    intros done item rest url headers spec page_size acc start w fuel Hposts Hgo script.
  - cbn [length Nat.add map concat]. rewrite app_nil_r, after_nil.
    f_equal. lia.
  - apply Forall_cons in Hgo as [Hp Hgo].
    cbn [length Nat.add fetch_loop]. unfold http. cbn [answer scripted arrival].
    assert (script !! posts w = Some (Ok (encode p))) as ->.
    { subst script. cbn [map app]. now apply list_lookup_middle. }
    change (default (Raise RequestException) (Some (Ok (encode p))))
      with (@Ok value (encode p)).
    cbv beta iota. rewrite page_turn_encode, Hp.
    change {| now := now w; sent := sent w ++ [?r] |} with (after [r] w).
    subst script. cbn [map app].
    rewrite (cons_middle (Ok (encode p))), app_assoc.
    rewrite (IH (done ++ [Ok (encode p)])).
    + rewrite after_after, lookups_S. cbn [map concat app].
      rewrite <- (app_assoc acc (records p)). f_equal. lia.
    + rewrite posts_after_post, length_app. simpl. lia.
    + exact Hgo.
Qed.

Lemma lookups_snoc url headers spec page_size start k :
  lookups url headers spec page_size start (S k)
  = lookups url headers spec page_size start k
    ++ [Post url headers {| PageSize := page_size; Searchspec := spec;
                            StartRowNum := start + Z.of_nat k * page_size |}].
Proof. unfold lookups. now rewrite seq_S, List.map_app. Qed.

Lemma posts_after_lookups url headers spec page_size start k w :
  posts (after (lookups url headers spec page_size start k) w)
  = (posts w + k)%nat.
Proof.
  induction k as [|k IH]; [now rewrite after_nil, Nat.add_0_r|].
  rewrite lookups_snoc, <- after_after, posts_after_post, IH. lia.
Qed.

(** [fetch_leads] on a scripted source whose first pages do not stop the
    loop, for a token that is obtained and a start date that is a date:
    what is left is the loop at the item that follows them. *)
Lemma fetch_leads_pages token_data pages item rest c days_back status
    page_size w headers c' w' start fuel :
  let script := map (fun p => Ok (encode p)) pages ++ item :: rest in
  get_headers (R := scripted token_data script) c w = (Ok headers, c', w') ->
  start_instant (now w') days_back = Ok start ->
  posts w = 0%nat ->
  Forall (fun p => stops page_size p = false) pages ->
  let url := base_url c' +:+ "/leads/lookup" in
  let spec :=
    make_searchspec c' (strftime "%m/%d/%Y 00:00:00" start)
      status in
  fetch_leads (R := scripted token_data script) (length pages + fuel)
    c days_back status page_size w
  = match fetch_loop (R := scripted token_data script) fuel url headers spec
            page_size (concat (map records pages))
            (Z.of_nat (length pages) * page_size)
            (after (lookups url headers spec page_size 0 (length pages)) w')
    with
    | Some (r, w'') => Some (r, c', w'')
    | None => None
    end.
Proof.
  intros script Hhead Hstart Hposts Hgo url spec.
  pose proof (get_headers_base_url (R := scripted token_data script)
                _ _ _ _ _ Hhead) as Hurl.
  unfold fetch_leads. rewrite Hhead, Hstart. fold spec. rewrite <- Hurl. fold url.
  pose proof (fetch_loop_pages token_data pages [] item rest url headers spec
                page_size [] 0 w' fuel) as Hloop.
  cbv zeta in Hloop. cbn [app] in Hloop. fold script in Hloop.
  rewrite Hloop; [reflexivity| |exact Hgo].
  rewrite (get_headers_posts (R := scripted token_data script) _ _ _ _ _ Hhead).
  exact Hposts.
Qed.

(** C3: when the source delivers pages that do not meet a stop condition
    and then a page that does (zero records, or ["LastPage"] equal to
    ["true"], or fewer records than [page_size]), [fetch_leads] sends one
    lookup per page, the offset advancing by [page_size], sends none after
    the page that stops it, whatever the source would deliver next, and
    returns the records of the pages received, in the order received.
    This is for a run that gets as far as the lookups: the token is
    obtained and the day [days_back] days before now is a date.  For
    pages of 100, 100 and 37 records and [page_size] 100 it returns the 237
    records in order after three lookups. *)
Theorem fetch_leads_paginates :
  (forall (token_data : value) (pages : list page) (final : page)
          (rest : list (result value)) (c c' : client) (days_back : Z)
          (status : option string) (page_size : Z) (w w' : net)
          (headers : value) (start : Z) (fuel : nat),
      let script := map (fun p => Ok (encode p)) (pages ++ [final]) ++ rest in
      get_headers (R := scripted token_data script) c w = (Ok headers, c', w') ->
      start_instant (now w') days_back = Ok start ->
      posts w = 0%nat ->
      Forall (fun p => stops page_size p = false) pages ->
      stops page_size final = true ->
      (length pages < fuel)%nat ->
      let url := base_url c' +:+ "/leads/lookup" in
      let spec :=
        make_searchspec c'
          (strftime "%m/%d/%Y 00:00:00" start) status in
      fetch_leads (R := scripted token_data script) fuel c days_back status
        page_size w
      = Some (Ok (concat (map records (pages ++ [final]))), c',
              after (lookups url headers spec page_size 0 (S (length pages))) w'))
  /\ (let batch from n := map (fun i => lead_of (pretty i)) (seq from n) in
      let page_of from n :=
        Ok (encode {| records := batch from n; last_page := VStr "false" |}) in
      let script := [page_of 0 100; page_of 100 100; page_of 200 37;
                     page_of 237 100]%nat in
      let token_data :=
        VDict [("access_token", VStr "token"); ("expires_in", VInt 1800)] in
      match fetch_leads (R := scripted token_data script) 10
              (init "key" "secret" "50020059") 30 None 100
              {| now := 0; sent := [] |} with
      | Some (Ok all_leads, _, w) =>
          all_leads = batch 0%nat 237%nat /\ posts w = 3%nat
      | _ => False
      end).
Proof.
  split.
  - intros token_data pages final rest c c' days_back status page_size w w'
      headers start fuel script Hhead Hstart Hposts Hgo Hstop Hfuel url spec.
    subst script. rewrite List.map_app, <- app_assoc in *. cbn [map app] in *.
    replace fuel with (length pages + S (fuel - S (length pages)))%nat by lia.
    rewrite (fetch_leads_pages token_data pages _ rest c days_back status
               page_size w headers c' w' start _ Hhead Hstart Hposts Hgo).
    fold url spec. cbn [fetch_loop]. unfold http. cbn [answer scripted arrival].
    rewrite posts_after_lookups.
    rewrite (get_headers_posts _ _ _ _ _ Hhead), Hposts. cbn [Nat.add].
    rewrite <- (length_map (fun p => Ok (encode p)) pages) at 1.
    rewrite list_lookup_middle by reflexivity.
    change (default (Raise RequestException) (Some (Ok (encode final))))
      with (@Ok value (encode final)).
    cbv beta iota. rewrite page_turn_encode, Hstop.
    rewrite (List.map_app records), concat_app. cbn [map concat].
    rewrite app_nil_r.
    change {| now := now (after ?rs w'); sent := sent (after ?rs w') ++ [?r] |}
      with (after [r] (after rs w')).
    rewrite after_after, lookups_snoc. reflexivity.
  - vm_compute. split; reflexivity.
Qed.

(** C4: when the source delivers [k] pages that do not stop the loop and
    the next lookup fails with a [RequestException], [fetch_leads] sends
    no further lookup, does not raise, and returns the records of the [k]
    pages, in order.  This is for a run that gets as far as the lookups:
    the token is obtained and the day [days_back] days before now is a
    date. *)
Theorem fetch_leads_partial_on_failure :
  forall (token_data : value) (pages : list page)
         (rest : list (result value)) (c c' : client) (days_back : Z)
         (status : option string) (page_size : Z) (w w' : net)
         (headers : value) (start : Z) (fuel : nat),
    let script :=
      map (fun p => Ok (encode p)) pages ++ Raise RequestException :: rest in
    get_headers (R := scripted token_data script) c w = (Ok headers, c', w') ->
    start_instant (now w') days_back = Ok start ->
    posts w = 0%nat ->
    Forall (fun p => stops page_size p = false) pages ->
    (length pages < fuel)%nat ->
    let url := base_url c' +:+ "/leads/lookup" in
    let spec :=
      make_searchspec c'
        (strftime "%m/%d/%Y 00:00:00" start) status in
    fetch_leads (R := scripted token_data script) fuel c days_back status
      page_size w
    = Some (Ok (concat (map records pages)), c',
            after (lookups url headers spec page_size 0 (S (length pages))) w').
Proof.
  intros token_data pages rest c c' days_back status page_size w w'
    headers start fuel script Hhead Hstart Hposts Hgo Hfuel url spec.
  replace fuel with (length pages + S (fuel - S (length pages)))%nat by lia.
  rewrite (fetch_leads_pages token_data pages _ rest c days_back status
             page_size w headers c' w' start _ Hhead Hstart Hposts Hgo).
  fold url spec. cbn [fetch_loop]. unfold http. cbn [answer scripted arrival].
  rewrite posts_after_lookups.
  rewrite (get_headers_posts _ _ _ _ _ Hhead), Hposts. cbn [Nat.add].
  rewrite <- (length_map (fun p => Ok (encode p)) pages) at 1.
  rewrite list_lookup_middle by reflexivity.
  change (default (Raise RequestException) (Some (Raise RequestException)))
    with (@Raise value RequestException).
  cbv beta iota.
  change {| now := now (after ?rs w'); sent := sent (after ?rs w') ++ [?r] |}
    with (after [r] (after rs w')).
  rewrite after_after, lookups_snoc. reflexivity.
Qed.

End Pagination.

(** ** Termination of the pagination *)

Section Termination.
Context {B : Builtins} {R : Remote}.

Lemma fetch_loop_finite (N page_size : Z) url headers spec :
  1 <= page_size -> finite_source N ->
  forall fuel acc start w,
    Z.max 0 (N - start) < Z.of_nat fuel ->
    is_Some (fetch_loop fuel url headers spec page_size acc start w).
Proof.
  intros Hsize Hfin fuel.
  induction fuel as [|fuel IH]; intros acc start w Hfuel; [lia|].
  cbn [fetch_loop]. unfold http.
  destruct (answer w (Post _ _ _)) as [data|e] eqn:Hans.
  - destruct (page_turn page_size acc data) as [[all_leads|all_leads]|e] eqn:Hturn;
      [eauto| |eauto].
    destruct (Z_le_gt_dec N start) as [Hle|Hgt].
    + exfalso.
      destruct (Hfin w url headers
                  {| PageSize := page_size; Searchspec := spec;
                     StartRowNum := start |} data Hle Hans)
        as (p & -> & Hempty).
      rewrite page_turn_encode in Hturn. unfold stops in Hturn.
      rewrite Hempty in Hturn. discriminate.
    + apply IH. lia.
  - destruct e; eauto.
Qed.

Lemma fetch_loop_page_size_0 (p : page) url headers spec start :
  records p <> [] -> py_eq_str (last_page p) "true" = false ->
  (forall w,
      answer w (Post url headers {| PageSize := 0; Searchspec := spec;
                                    StartRowNum := start |})
      = Ok (encode p)) ->
  forall fuel acc w,
    fetch_loop fuel url headers spec 0 acc start w = None.
Proof.
  intros Hrec Hlast Hans fuel.
  induction fuel as [|fuel IH]; intros acc w; [reflexivity|].
  cbn [fetch_loop]. unfold http. rewrite Hans, page_turn_encode.
  assert (stops 0 p = false) as ->.
  { unfold stops. rewrite Hlast, bool_decide_eq_false_2 by exact Hrec.
    cbn [orb]. apply Z.ltb_ge. lia. }
  rewrite Z.add_0_r. apply IH.
Qed.

(** C10, as the code has it: with [page_size >= 1] and a source that has
    at most [N] rows, the loop ends within [N + 1] turns, wherever it
    starts; with [page_size = 0] and a source that answers every lookup
    with the same non-empty page that does not declare itself the last,
    the loop never ends. *)
Theorem fetch_loop_terminates :
  (forall (N page_size : Z) (url : string) (headers : value) (spec : string),
      1 <= page_size -> finite_source N ->
      forall (fuel : nat) (acc : list value) (start : Z) (w : net),
        Z.max 0 (N - start) < Z.of_nat fuel ->
        is_Some (fetch_loop fuel url headers spec page_size acc start w))
  /\ (forall (p : page) (url : string) (headers : value) (spec : string)
             (start : Z),
         records p <> [] -> py_eq_str (last_page p) "true" = false ->
         (forall w,
             answer w (Post url headers {| PageSize := 0; Searchspec := spec;
                                           StartRowNum := start |})
             = Ok (encode p)) ->
         forall (fuel : nat) (acc : list value) (w : net),
           fetch_loop fuel url headers spec 0 acc start w = None).
Proof.
  split.
  - exact fetch_loop_finite.
  - exact fetch_loop_page_size_0.
Qed.

End Termination.

Lemma dataset_finite token_data rows :
  finite_source (R := dataset token_data rows) (Z.of_nat (length rows)).
Proof.
  intros w url headers body data Hrow [= <-].
  eexists; split; [reflexivity|]. cbn [records].
  rewrite drop_ge by lia. now destruct (Z.to_nat (PageSize body)).
Qed.

(** * Further properties of the sheet manager *)

Section Headers_always.
Context `{Builtins}.

Lemma append_leads_split leads name skip :
  append_leads leads name skip
  = (let! _ := ensure_headers name in append_body leads name skip).
Proof. reflexivity. Qed.

Lemma check_headers_outage w name status :
  outage w = Some status ->
  check_headers name w = (Raise (HttpError status), logged (CGet name A1_U1) w).
Proof.
  intros Ho. unfold check_headers, bind.
  now rewrite (values_get_outage _ _ _ _ Ho).
Qed.

Lemma add_sheet_outage w name status :
  outage w = Some status ->
  add_sheet name w = (Raise (HttpError status), logged (CAddSheet name) w).
Proof.
  intros Ho. unfold add_sheet, bind, send, service_up, logged; simpl.
  now rewrite Ho.
Qed.

Lemma ensure_headers_at_refused depth :
  forall w name,
    outage w = Some 400 ->
    ensure_headers_at depth name w
    = (Raise RecursionError,
       {| tabs := tabs w; outage := outage w; clock := clock w;
          calls := calls w ++ refused_rounds name depth |}).
Proof.
  induction depth as [|depth IH]; intros w name Ho.
  - unfold refused_rounds. cbn [ensure_headers_at replicate concat].
    unfold raise. rewrite app_nil_r. now destruct w.
  - cbn [ensure_headers_at]. unfold except_HttpError at 1.
    rewrite (check_headers_outage _ _ _ Ho).
    change (400 =? 400) with true. cbv iota.
    unfold bind at 1, create_sheet, except_HttpError at 1.
    rewrite (add_sheet_outage (logged (CGet name A1_U1) w) name 400 Ho).
    unfold ret.
    rewrite IH by exact Ho.
    unfold refused_rounds, logged. cbn [tabs outage clock calls replicate concat].
    now rewrite <- !app_assoc.
Qed.

Lemma ensure_headers_refused w name :
  outage w = Some 400 ->
  ensure_headers name w
  = (Raise RecursionError,
     {| tabs := tabs w; outage := outage w; clock := clock w;
        calls := calls w ++ refused_rounds name recursion_limit |}).
Proof. intros Ho. now apply ensure_headers_at_refused. Qed.

Lemma ensure_headers_at_failed depth w name status :
  outage w = Some status -> status <> 400 ->
  ensure_headers_at (S depth) name w
  = (Raise (HttpError status), logged (CGet name A1_U1) w).
Proof.
  intros Ho Hs. cbn [ensure_headers_at]. unfold except_HttpError.
  rewrite (check_headers_outage _ _ _ Ho).
  now rewrite (proj2 (Z.eqb_neq status 400) Hs).
Qed.

Lemma ensure_headers_failed w name status :
  outage w = Some status -> status <> 400 ->
  ensure_headers name w
  = (Raise (HttpError status), logged (CGet name A1_U1) w).
Proof.
  intros Ho Hs. unfold ensure_headers.
  change recursion_limit with (S (Nat.pred recursion_limit)).
  now apply ensure_headers_at_failed.
Qed.

Lemma lead_cells_length l cells :
  lead_cells l = Ok cells -> length cells = 20%nat.
Proof.
  destruct l as [| | | | |d]; try discriminate.
  unfold lead_cells. destruct (extract_notes d) as [notes|e]; [|discriminate].
  cbn [rbind]. now intros [= <-].
Qed.

Lemma lead_to_row_state l w :
  exists r,
    lead_to_row l w = (r, w)
    /\ forall row, r = Ok row ->
         row = lead_row (clock w) l /\ length row = 21%nat.
Proof.
  unfold lead_to_row, lead_row, bind, lift.
  destruct (lead_cells l) as [cells|e] eqn:Hc.
  - eexists; split; [reflexivity|]. intros row [= <-]. split; [reflexivity|].
    rewrite length_app, (lead_cells_length _ _ Hc). reflexivity.
  - eexists; split; [reflexivity|]. discriminate.
Qed.

Lemma lead_rows_state leads w :
  exists r,
    lead_rows leads w = (r, w)
    /\ forall rows, r = Ok rows ->
         rows = map (lead_row (clock w)) leads
         /\ Forall (fun row => length row = 21%nat) rows.
Proof.
  induction leads as [|l leads (r & Hrun & Hrows)].
  - eexists; split; [reflexivity|]. intros rows [= <-]. now split.
  - cbn [lead_rows]. unfold bind at 1.
    destruct (lead_to_row_state l w) as (r1 & -> & Hrow).
    destruct r1 as [row|e]; [|eexists; split; [reflexivity|discriminate]].
    unfold bind at 1. rewrite Hrun.
    destruct r as [rows|e]; [|eexists; split; [reflexivity|discriminate]].
    eexists; split; [reflexivity|]. unfold ret. intros rows' [= <-].
    destruct (Hrow row eq_refl) as [-> Hlen].
    destruct (Hrows rows eq_refl) as [-> Hlens].
    split; [reflexivity|]. now constructor.
Qed.

Lemma body_text_shape values txt :
  body_text values = Some txt ->
  length txt = length values
  /\ forall n, Forall (fun row => length row = n) values ->
               Forall (fun row => length row = n) txt.
Proof.
  intros Hb. apply mapM_Some_1 in Hb. split.
  - symmetry. now apply (Forall2_length _ _ _ Hb).
  - intros n Hn. induction Hb as [|row trow values txt Hrow _ IH]; [constructor|].
    apply Forall_cons in Hn as [Hlen Hn]. constructor; [|now apply IH].
    rewrite <- Hlen. symmetry. now apply length_mapM in Hrow.
Qed.

Lemma values_append_refused w name r values rows :
  outage w = None -> tabs w !! name = Some rows ->
  body_text values = None ->
  values_append name r values w
  = (Raise (HttpError 400), logged (CAppend name r values) w).
Proof.
  intros Ho Ht Hb.
  unfold values_append, open_tab, bind, send, service_up, ret, logged; simpl.
  rewrite Ho; simpl. rewrite Ht, Hb. reflexivity.
Qed.

Lemma outcome_nothing name rows w r w' :
  tabs w !! name = Some rows ->
  tabs w' = tabs w -> outage w' = outage w -> clock w' = clock w ->
  match r with Ok n => n = 0 | Raise _ => True end ->
  outcome name rows w r w' [].
Proof.
  intros Ht Htabs Ho Hc Hr. unfold outcome. rewrite app_nil_r, Htabs.
  repeat split; auto. now destruct r.
Qed.

Lemma write_leads_run leads name w rows r w' :
  outage w = None -> tabs w !! name = Some rows ->
  write_leads leads name w = (r, w') ->
  exists added, outcome name rows w r w' added.
Proof.
  intros Ho Ht. unfold write_leads.
  destruct (bool_decide (leads = [])).
  - intros [= <- <-]. exists []. now apply outcome_nothing.
  - unfold bind at 1.
    destruct (lead_rows_state leads w) as (rr & -> & Hrows).
    destruct rr as [values|e].
    2:{ intros [= <- <-]. exists []. now apply outcome_nothing. }
    destruct (Hrows values eq_refl) as [_ Hwidth].
    unfold except_HttpError, bind.
    destruct (body_text values) as [txt|] eqn:Hb.
    + rewrite (values_append_ok _ _ _ _ _ _ Ho Ht Hb). unfold ret.
      intros [= <- <-]. exists txt.
      destruct (body_text_shape _ _ Hb) as [Hlen Hw].
      unfold outcome. cbn [tabs outage clock with_tab logged default].
      rewrite lookup_insert_eq, Hlen. repeat split; auto.
      intros other Hne. now rewrite lookup_insert_ne.
    + rewrite (values_append_refused _ _ _ _ _ Ho Ht Hb). unfold ret.
      intros [= <- <-]. exists []. now apply outcome_nothing.
Qed.

Lemma kept_leads_state leads name skip w rows :
  outage w = None -> tabs w !! name = Some rows ->
  exists r w1,
    kept_leads leads name skip w = (r, w1)
    /\ tabs w1 = tabs w /\ outage w1 = outage w /\ clock w1 = clock w.
Proof.
  intros Ho Ht. unfold kept_leads. destruct skip.
  - unfold bind. rewrite (get_existing_lead_ids_ok _ _ _ Ho Ht).
    unfold lift. now eexists _, _.
  - unfold ret. now eexists _, _.
Qed.

Lemma append_body_run leads name skip w rows r w' :
  outage w = None -> tabs w !! name = Some rows ->
  append_body leads name skip w = (r, w') ->
  exists added, outcome name rows w r w' added.
Proof.
  intros Ho Ht. unfold append_body, bind.
  destruct (kept_leads_state leads name skip w rows Ho Ht)
    as (rk & w1 & -> & Htabs & Ho1 & Hc1).
  destruct rk as [new|e].
  - intros Hrun.
    destruct (write_leads_run new name w1 rows r w') as (added & Hout);
      [congruence|congruence|exact Hrun|].
    exists added. unfold outcome in *. rewrite <- Htabs, <- Ho1, <- Hc1.
    exact Hout.
  - intros [= <- <-]. exists []. now apply outcome_nothing.
Qed.

Lemma after_headers_frame name rows w other :
  other <> name ->
  tabs (after_headers name rows w) !! other = tabs w !! other.
Proof.
  intros Hne. unfold after_headers.
  destruct (decide (first_row rows = HEADERS)); simpl; [reflexivity|].
  now rewrite lookup_insert_ne.
Qed.

Lemma drop_1_installed rows : drop 1 (installed rows) = drop 1 rows.
Proof.
  unfold installed. destruct (decide (first_row rows = HEADERS)); [reflexivity|].
  rewrite overwrite_headers. simpl. now rewrite drop_0.
Qed.

(** Every run of [append_leads]: the header step raises and the tabs are
    as before, or the tab holds the headers, the rows it had below them
    and the rows [added]. *)
Lemma append_leads_cases leads name skip w r w' :
  append_leads leads name skip w = (r, w') ->
  (exists e, r = Raise e /\ tabs w' = tabs w /\ is_Some (outage w))
  \/ (outage w = None
      /\ exists added,
          tabs w' !! name
          = Some (installed (default [] (tabs w !! name)) ++ added)
          /\ (forall other, other <> name -> tabs w' !! other = tabs w !! other)
          /\ Forall (fun row => length row = 21%nat) added
          /\ match r with
             | Ok n => n = Z.of_nat (length added)
             | Raise _ => added = []
             end).
Proof.
  rewrite append_leads_split. unfold bind. intros Hrun.
  destruct (outage w) as [status|] eqn:Ho.
  - left. destruct (decide (status = 400)) as [->|Hs].
    + rewrite (ensure_headers_refused _ _ Ho) in Hrun.
      injection Hrun as <- <-. eauto.
    + rewrite (ensure_headers_failed _ _ _ Ho Hs) in Hrun.
      injection Hrun as <- <-. eauto.
  - right. split; [reflexivity|].
    destruct (tabs w !! name) as [rows|] eqn:Ht.
    + rewrite (ensure_headers_existing _ _ _ Ho Ht) in Hrun.
      destruct (after_headers_spec name rows w Ho Ht) as (Ho1 & _ & Ht1).
      destruct (append_body_run _ _ _ _ _ _ _ Ho1 Ht1 Hrun)
        as (added & Htab & Hframe & _ & _ & Hwidth & Hcount).
      exists added. repeat split; auto.
      intros other Hne. rewrite (Hframe other Hne).
      now apply after_headers_frame.
    + rewrite (ensure_headers_missing _ _ Ho Ht) in Hrun.
      set (w0 := with_tab name [] (logged (CAddSheet name)
                                     (logged (CGet name A1_U1) w))) in *.
      assert (outage w0 = None) as Ho0 by exact Ho.
      assert (tabs w0 !! name = Some []) as Ht0 by apply lookup_insert_eq.
      destruct (after_headers_spec name [] w0 Ho0 Ht0) as (Ho1 & _ & Ht1).
      destruct (append_body_run _ _ _ _ _ _ _ Ho1 Ht1 Hrun)
        as (added & Htab & Hframe & _ & _ & Hwidth & Hcount).
      exists added. repeat split; auto.
      intros other Hne. rewrite (Hframe other Hne).
      rewrite (after_headers_frame name [] w0 other Hne).
      subst w0. simpl. now rewrite lookup_insert_ne.
Qed.

(** X1: whatever the records, the flag and the state of the service,
    [append_leads] adds rows below the rows of the tab and nowhere else:
    the rows that were below the first row stay, in place; the rows added
    are 21 cells wide and as many as the count returned, none when the
    call raises; no other tab changes. *)
Theorem append_leads_accounts :
  forall (leads : list value) (name : string) (skip : bool) (w w' : store)
         (r : result Z),
    append_leads leads name skip w = (r, w') ->
    exists added,
      data_rows name w' = data_rows name w ++ added
      /\ Forall (fun row => length row = 21%nat) added
      /\ match r with
         | Ok n => n = Z.of_nat (length added)
         | Raise _ => added = []
         end
      /\ forall other, other <> name -> tabs w' !! other = tabs w !! other.
Proof.
  intros leads name skip w w' r Hrun. unfold data_rows.
  destruct (append_leads_cases _ _ _ _ _ _ Hrun)
    as [(e & -> & Htabs & _)|(_ & added & Htab & Hframe & Hwidth & Hcount)].
  - exists []. rewrite Htabs, app_nil_r. repeat split; auto.
  - exists added. rewrite Htab. cbn [default].
    destruct (installed_cons (default [] (tabs w !! name))) as (r0 & rest & Hi).
    pose proof (drop_1_installed (default [] (tabs w !! name))) as Hd.
    rewrite Hi in Hd |- *. simpl in Hd |- *. rewrite drop_0 in Hd |- *.
    rewrite Hd. repeat split; auto.
Qed.

(** X2: when [append_leads] or [replace_all_leads] returns without
    raising, the tab exists and columns A to U of its first row hold the
    canonical headers, whatever the tab held before and whatever the
    records are. *)
Theorem headers_in_place_after_write :
  (forall (leads : list value) (name : string) (skip : bool) (w w' : store)
          (n : Z),
      append_leads leads name skip w = (Ok n, w') ->
      exists rows, tabs w' !! name = Some rows /\ first_row rows = HEADERS)
  /\ (forall (leads : list value) (name : string) (w w' : store) (n : Z),
         replace_all_leads leads name w = (Ok n, w') ->
         exists rows, tabs w' !! name = Some rows /\ first_row rows = HEADERS).
Proof.
  assert (forall leads name skip w w' n,
             append_leads leads name skip w = (Ok n, w') ->
             exists rows, tabs w' !! name = Some rows /\ first_row rows = HEADERS)
    as Happend.
  { intros leads name skip w w' n Hrun.
    destruct (append_leads_cases _ _ _ _ _ _ Hrun)
      as [(e & [=] & _)|(_ & added & Htab & _)].
    eexists; split; [exact Htab|]. apply first_row_below. }
  split; [exact Happend|].
  intros leads name w w' n. unfold replace_all_leads, bind.
  destruct (except_HttpError _ _ w) as [[u|e] w1]; [|discriminate].
  apply Happend.
Qed.

Lemma values_clear_outage w name status :
  outage w = Some status ->
  values_clear name w = (Raise (HttpError status), logged (CClear name) w).
Proof.
  intros Ho. unfold values_clear, open_tab, bind, service_up, send.
  cbn [outage logged]. now rewrite Ho.
Qed.

(** X3: on a service that refuses every request with a status other than
    400, the failure of the header read is not absorbed.  [append_leads]
    raises the [HttpError] after that one read, having sent no write.
    [replace_all_leads] has sent its clear by then, whose refusal it
    absorbs; it raises the [HttpError] of the header read that follows and
    sends nothing more.  The tabs are as they were. *)
Theorem header_failure_is_raised :
  forall (leads : list value) (name : string) (skip : bool) (w : store)
         (status : Z),
    outage w = Some status -> status <> 400 ->
    append_leads leads name skip w
    = (Raise (HttpError status), logged (CGet name A1_U1) w)
    /\ replace_all_leads leads name w
       = (Raise (HttpError status),
          logged (CGet name A1_U1) (logged (CClear name) w))
    /\ tabs (snd (replace_all_leads leads name w)) = tabs w.
Proof.
  intros leads name skip w status Ho Hs.
  assert (forall skip w, outage w = Some status ->
                         append_leads leads name skip w
                         = (Raise (HttpError status), logged (CGet name A1_U1) w))
    as Happend.
  { intros k w0 Ho0. rewrite append_leads_split. unfold bind.
    now rewrite (ensure_headers_failed _ _ _ Ho0 Hs). }
  split; [now apply Happend|].
  assert (replace_all_leads leads name w
          = (Raise (HttpError status),
             logged (CGet name A1_U1) (logged (CClear name) w))) as Hreplace.
  { unfold replace_all_leads, bind, except_HttpError.
    rewrite (values_clear_outage _ _ _ Ho). unfold ret.
    now apply Happend. }
  split; [exact Hreplace|]. now rewrite Hreplace.
Qed.

(** X4: [_ensure_headers] has no bound of its own on its retries: on a
    service that answers every request with status 400 it does not give
    up with that [HttpError] and does not return, whatever depth the
    interpreter grants it; it ends in [RecursionError].  All it has sent
    by then are header reads and requests for the tab, no update; the tabs
    are as they were.  [append_leads] ends the same way. *)
Theorem ensure_headers_retries_without_bound :
  forall (name : string) (w : store),
    outage w = Some 400 ->
    (forall depth,
        exists w' requests,
          ensure_headers_at depth name w = (Raise RecursionError, w')
          /\ tabs w' = tabs w
          /\ calls w' = calls w ++ requests
          /\ Forall (fun c => c = CGet name A1_U1 \/ c = CAddSheet name)
                requests)
    /\ forall leads skip, fst (append_leads leads name skip w) = Raise RecursionError.
Proof.
  intros name w Ho. split.
  - intros depth. eexists _, (refused_rounds name depth).
    split; [now apply ensure_headers_at_refused|].
    split; [reflexivity|]. split; [reflexivity|].
    unfold refused_rounds. induction depth as [|depth IH]; [constructor|].
    cbn [replicate concat app]. constructor; [now left|].
    constructor; [now right|exact IH].
  - intros leads skip. rewrite append_leads_split. unfold bind.
    now rewrite (ensure_headers_refused _ _ Ho).
Qed.

(** X5: once [_ensure_headers] has returned, a second run sends its one
    read and nothing else: the headers it installed pass its own test. *)
Theorem ensure_headers_settles :
  forall (name : string) (w w1 : store),
    ensure_headers name w = (Ok tt, w1) ->
    ensure_headers name w1 = (Ok tt, logged (CGet name A1_U1) w1).
Proof.
  intros name w w1 Hrun.
  assert (outage w1 = None
          /\ exists rows, tabs w1 !! name = Some rows /\ first_row rows = HEADERS)
    as (Ho1 & rows1 & Ht1 & Hfirst).
  { destruct (outage w) as [status|] eqn:Ho.
    - exfalso. destruct (decide (status = 400)) as [->|Hs].
      + rewrite (ensure_headers_refused _ _ Ho) in Hrun. discriminate.
      + rewrite (ensure_headers_failed _ _ _ Ho Hs) in Hrun. discriminate.
    - destruct (tabs w !! name) as [rows|] eqn:Ht.
      + rewrite (ensure_headers_existing _ _ _ Ho Ht) in Hrun.
        injection Hrun as <-.
        destruct (after_headers_spec name rows w Ho Ht) as (Ho1 & _ & Ht1).
        split; [exact Ho1|]. eexists; split; [exact Ht1|].
        apply first_row_installed.
      + rewrite (ensure_headers_missing _ _ Ho Ht) in Hrun.
        injection Hrun as <-. split; [exact Ho|].
        eexists; split; [apply lookup_insert_eq|reflexivity]. }
  rewrite (ensure_headers_existing _ _ _ Ho1 Ht1). unfold after_headers.
  now destruct (decide (first_row rows1 = HEADERS)).
Qed.

(** X6: [_create_sheet] never raises, leaves a tab that exists as it is,
    and touches no other tab; on a service that is up it makes the tab
    exist. *)
Theorem create_sheet_never_raises :
  forall (name : string) (w : store),
    exists w',
      create_sheet name w = (Ok tt, w')
      /\ (is_Some (tabs w !! name) -> tabs w' = tabs w)
      /\ (forall other, other <> name -> tabs w' !! other = tabs w !! other)
      /\ (outage w = None -> is_Some (tabs w' !! name)).
Proof.
  intros name w. unfold create_sheet, except_HttpError.
  destruct (outage w) as [status|] eqn:Ho.
  - rewrite (add_sheet_outage _ _ _ Ho). unfold ret.
    eexists; split; [reflexivity|]. repeat split; auto. discriminate.
  - destruct (tabs w !! name) as [rows|] eqn:Ht.
    + assert (add_sheet name w
              = (Raise (HttpError 400), logged (CAddSheet name) w)) as ->.
      { unfold add_sheet, bind, send, service_up, logged; simpl.
        rewrite Ho; simpl. now rewrite Ht. }
      unfold ret. eexists; split; [reflexivity|]. simpl.
      repeat split; eauto.
    + rewrite (add_sheet_new _ _ Ho Ht).
      eexists; split; [reflexivity|]. simpl. repeat split.
      * now intros [? [=]].
      * intros other Hne. now rewrite lookup_insert_ne.
      * intros _. rewrite lookup_insert_eq. eauto.
Qed.

(** X7: [_lead_to_row] returns a row exactly for a record that is an
    object with notes [_extract_notes] can read; the row has as many cells
    as there are headers, its Phone cell holds the preferred number or,
    when that is absent or empty, the home number, and the store is not
    touched. *)
Theorem lead_to_row_shape :
  forall (l : value) (w : store),
    exists r,
      lead_to_row l w = (r, w)
      /\ ((exists row, r = Ok row)
          <-> exists d notes, l = VDict d /\ extract_notes d = Ok notes)
      /\ forall row d,
           r = Ok row -> l = VDict d ->
           length row = length HEADERS
           /\ row !! 6%nat
              = Some (let phone := dict_get_default d "MMSVPreferredContactPhoneNumber" (VStr "") in
                      if truthy phone then phone
                      else dict_get_default d "SFIContactHomePhone" (VStr ""))
           /\ row !! 20%nat
              = Some (VStr (strftime "%m/%d/%Y %H:%M:%S" (clock w))).
Proof.
  intros l w. unfold lead_to_row, bind, lift.
  destruct l as [| | | | |d];
    try (eexists; split; [reflexivity|]; split;
         [split; [intros [? [=]]|intros (? & ? & [=] & _)]|discriminate]).
  unfold lead_cells.
  destruct (extract_notes d) as [notes|e] eqn:Hn; cbn [rbind].
  - eexists; split; [reflexivity|]. split.
    + split; [intros _; now exists d, notes|intros _; eauto].
    + intros row d' [= <-] [= <-]. repeat split.
  - eexists; split; [reflexivity|]. split.
    + split; [intros [? [=]]|intros (d' & n & [= <-] & Hn'); congruence].
    + discriminate.
Qed.

Lemma append_leads_all_run w name rows leads :
  outage w = None -> tabs w !! name = Some rows ->
  Forall (fun l => writable l = true) leads ->
  append_leads leads name false w
  = if bool_decide (leads = []) then (Ok 0, after_headers name rows w)
    else (Ok (Z.of_nat (length leads)),
          with_tab name (installed rows ++ map (sheet_row (clock w)) leads)
            (logged (CAppend name A_U (map (lead_row (clock w)) leads))
               (after_headers name rows w))).
Proof.
  intros Ho Ht HF.
  destruct (after_headers_spec name rows w Ho Ht) as (Ho1 & Hc1 & Ht1).
  unfold append_leads. unfold bind at 1.
  rewrite (ensure_headers_existing _ _ _ Ho Ht).
  unfold bind at 1, ret at 1.
  destruct (bool_decide (leads = [])) eqn:Hnew; [reflexivity|].
  unfold bind at 1. rewrite (lead_rows_writable _ _ HF).
  unfold except_HttpError, bind. rewrite Hc1.
  rewrite (values_append_ok (after_headers name rows w) name A_U
             (map (lead_row (clock w)) leads)
             (map (sheet_row (clock w)) leads) (installed rows));
    [|exact Ho1|exact Ht1|now apply body_text_writable].
  unfold ret. simpl default. now rewrite length_map.
Qed.

(** X8: with [skip_duplicates=False] and writable records, [append_leads]
    writes a row for every record, also for one whose identifier the table
    holds already, and returns their number; column A is not read. *)
Theorem append_leads_without_skip :
  forall (w : store) (name : string) (rows : list (list string))
         (leads : list value),
    outage w = None -> tabs w !! name = Some rows ->
    Forall (fun l => writable l = true) leads ->
    exists w',
      append_leads leads name false w = (Ok (Z.of_nat (length leads)), w')
      /\ tabs w' !! name
         = Some (installed rows ++ map (sheet_row (clock w)) leads)
      /\ calls w'
         = calls (after_headers name rows w)
           ++ (if bool_decide (leads = []) then []
               else [CAppend name A_U (map (lead_row (clock w)) leads)]).
Proof.
  intros w name rows leads Ho Ht HF.
  rewrite (append_leads_all_run _ _ _ _ Ho Ht HF).
  destruct (after_headers_spec name rows w Ho Ht) as (_ & _ & Ht1).
  destruct (bool_decide (leads = [])) eqn:Hnil.
  - apply bool_decide_eq_true_1 in Hnil as ->.
    eexists; split; [reflexivity|]. simpl. rewrite !app_nil_r. now split.
  - eexists; split; [reflexivity|]. simpl. split; [|reflexivity].
    apply lookup_insert_eq.
Qed.

Lemma append_body_all_run w name rows leads :
  outage w = None -> tabs w !! name = Some rows ->
  Forall (fun l => writable l = true) leads ->
  append_body leads name false w
  = if bool_decide (leads = []) then (Ok 0, w)
    else (Ok (Z.of_nat (length leads)),
          with_tab name (rows ++ map (sheet_row (clock w)) leads)
            (logged (CAppend name A_U (map (lead_row (clock w)) leads)) w)).
Proof.
  intros Ho Ht HF. unfold append_body, kept_leads, write_leads.
  unfold bind at 1, ret at 1.
  destruct (bool_decide (leads = [])) eqn:Hnew; [reflexivity|].
  unfold bind at 1. rewrite (lead_rows_writable _ _ HF).
  unfold except_HttpError, bind.
  rewrite (values_append_ok w name A_U (map (lead_row (clock w)) leads)
             (map (sheet_row (clock w)) leads) rows);
    [|exact Ho|exact Ht|now apply body_text_writable].
  unfold ret. simpl default. now rewrite length_map.
Qed.

Lemma values_clear_ok w name rows :
  outage w = None -> tabs w !! name = Some rows ->
  values_clear name w
  = (Ok tt,
     with_tab name
       (rstrip all_blank (take 1 rows ++ map blank_AU (drop 1 rows)))
       (logged (CClear name) w)).
Proof.
  intros Ho Ht. unfold values_clear, open_tab, bind, service_up, set_tab, send.
  cbn [outage tabs logged]. rewrite Ho; simpl. now rewrite Ht.
Qed.

Lemma values_clear_missing w name :
  outage w = None -> tabs w !! name = None ->
  values_clear name w = (Raise (HttpError 400), logged (CClear name) w).
Proof.
  intros Ho Ht. unfold values_clear, open_tab, bind, service_up, send.
  cbn [outage tabs logged]. rewrite Ho; simpl. now rewrite Ht.
Qed.

Lemma rstrip_app_blank {A} (blank : A -> bool) (l t : list A) :
  Forall (fun x => blank x = true) t ->
  rstrip blank (l ++ t) = rstrip blank l.
Proof.
  intros Ht.
  assert (rstrip blank t = []) as Hnil.
  { induction Ht as [|x t Hx _ IH]; [reflexivity|].
    simpl. change (foldr _ [] t) with (rstrip blank t). now rewrite IH, Hx. }
  induction l as [|x l IH]; [exact Hnil|].
  simpl. change (foldr _ [] (l ++ t)) with (rstrip blank (l ++ t)).
  change (foldr _ [] l) with (rstrip blank l). now rewrite IH.
Qed.

(** A table without a cell right of column U, once cleared and given its
    headers back, is the header row. *)
Lemma cleared_installed rows :
  Forall (fun r => (length r <= 21)%nat) rows ->
  installed (rstrip all_blank (take 1 rows ++ map blank_AU (drop 1 rows)))
  = [HEADERS].
Proof.
  intros Hw.
  rewrite rstrip_app_blank.
  2:{ apply Forall_forall. intros r Hr.
      apply list_elem_of_In, List.in_map_iff in Hr as (r' & <- & Hr').
      unfold blank_AU.
      destruct (decide (length r' <= 21)%nat) as [_|Hn]; [reflexivity|].
      exfalso. apply Hn.
      pose proof (Forall_drop _ 1 _ Hw) as Hd. rewrite Forall_forall in Hd.
      apply Hd. now apply list_elem_of_In. }
  destruct rows as [|r0 rest]; [reflexivity|].
  apply Forall_cons in Hw as [Hlen _].
  cbn [take firstn]. rewrite take_0. cbn [rstrip foldr].
  destruct (all_blank r0) eqn:Hb; [reflexivity|].
  unfold installed, first_row. cbn [head default].
  rewrite take_ge by exact Hlen. change (id r0) with r0.
  destruct (decide (r0 = HEADERS)) as [->|_]; [reflexivity|].
  rewrite overwrite_headers. cbn [head default drop]. change (id r0) with r0.
  now rewrite drop_ge, app_nil_r by exact Hlen.
Qed.

(** X9: [replace_all_leads] with writable records leaves the header row
    and one row for each record, in the order of the list, and returns the
    number of records: on a tab that has no cell right of column U,
    whatever rows it held, and on a tab that did not exist, which the
    failed clear does not stop. *)
Theorem replace_all_leads_replaces :
  (forall (w : store) (name : string) (rows : list (list string))
          (leads : list value),
      outage w = None -> tabs w !! name = Some rows ->
      Forall (fun r => (length r <= 21)%nat) rows ->
      Forall (fun l => writable l = true) leads ->
      exists w',
        replace_all_leads leads name w = (Ok (Z.of_nat (length leads)), w')
        /\ tabs w' !! name = Some (HEADERS :: map (sheet_row (clock w)) leads))
  /\ (forall (w : store) (name : string) (leads : list value),
         outage w = None -> tabs w !! name = None ->
         Forall (fun l => writable l = true) leads ->
         exists w',
           replace_all_leads leads name w = (Ok (Z.of_nat (length leads)), w')
           /\ tabs w' !! name = Some (HEADERS :: map (sheet_row (clock w)) leads)).
Proof.
  split.
  - intros w name rows leads Ho Ht Hw HF.
    unfold replace_all_leads, bind at 1, except_HttpError.
    rewrite (values_clear_ok _ _ _ Ho Ht).
    set (cleared := rstrip all_blank (take 1 rows ++ map blank_AU (drop 1 rows))).
    set (wc := logged (CClear name) w).
    assert (outage (with_tab name cleared wc) = None) as Hoc by exact Ho.
    assert (tabs (with_tab name cleared wc) !! name = Some cleared) as Htc
      by apply lookup_insert_eq.
    rewrite (append_leads_all_run (with_tab name cleared wc) name cleared leads
               Hoc Htc HF).
    destruct (after_headers_spec name cleared (with_tab name cleared wc) Hoc Htc)
      as (_ & _ & Ht1).
    subst cleared. rewrite (cleared_installed rows Hw) in *.
    destruct (bool_decide (leads = [])) eqn:Hnil.
    + apply bool_decide_eq_true_1 in Hnil as ->.
      eexists; split; [reflexivity|exact Ht1].
    + eexists; split; [reflexivity|]. simpl. apply lookup_insert_eq.
  - intros w name leads Ho Ht HF.
    unfold replace_all_leads, bind at 1, except_HttpError.
    rewrite (values_clear_missing _ _ Ho Ht). unfold ret.
    rewrite append_leads_split. unfold bind.
    set (wc := logged (CClear name) w).
    assert (outage wc = None) as Hoc by exact Ho.
    assert (tabs wc !! name = None) as Htc by exact Ht.
    rewrite (ensure_headers_missing _ _ Hoc Htc).
    set (w0 := with_tab name [] (logged (CAddSheet name)
                                   (logged (CGet name A1_U1) wc))).
    assert (outage w0 = None) as Ho0 by exact Ho.
    assert (tabs w0 !! name = Some []) as Ht0 by apply lookup_insert_eq.
    destruct (after_headers_spec name [] w0 Ho0 Ht0) as (Ho1 & Hc1 & Ht1).
    rewrite (append_body_all_run _ name (installed []) leads Ho1 Ht1 HF).
    rewrite Hc1. change (clock w0) with (clock w).
    destruct (bool_decide (leads = [])) eqn:Hnil.
    + apply bool_decide_eq_true_1 in Hnil as ->.
      eexists; split; [reflexivity|exact Ht1].
    + eexists; split; [reflexivity|]. simpl. apply lookup_insert_eq.
Qed.

Lemma readable_inv l :
  readable l = true -> exists d cells, l = VDict d /\ lead_cells l = Ok cells.
Proof.
  unfold readable. destruct l as [| | | | |d]; try discriminate.
  destruct (lead_cells (VDict d)) as [cells|e]; [eauto|discriminate].
Qed.

Lemma lead_rows_readable leads w :
  Forall (fun l => readable l = true) leads ->
  lead_rows leads w = (Ok (map (lead_row (clock w)) leads), w).
Proof.
  induction 1 as [|l leads Hl _ IH]; [reflexivity|].
  destruct (readable_inv _ Hl) as (d & cells & _ & Hc).
  cbn [lead_rows map]. unfold bind at 1, lead_to_row at 1, bind at 1, lift.
  rewrite Hc. unfold bind at 1. rewrite IH. unfold lead_row. now rewrite Hc.
Qed.

Lemma body_text_unwritable t leads :
  Forall (fun l => readable l = true) leads ->
  Exists (fun l => writable l = false) leads ->
  body_text (map (lead_row t) leads) = None.
Proof.
  intros Hr Hu. apply mapM_None_2.
  induction Hu as [l leads Hl|l leads _ IH];
    apply Forall_cons in Hr as [Hrl Hr]; cbn [map].
  - apply Exists_cons_hd.
    destruct (readable_inv _ Hrl) as (d & cells & _ & Hc).
    unfold writable in Hl. unfold lead_row. rewrite Hc in *.
    apply bool_decide_eq_false_1 in Hl.
    apply mapM_None_2, Exists_app. left.
    apply mapM_None_1. destruct (mapM cell_text cells) eqn:E; [|reflexivity].
    exfalso. apply Hl. eauto.
  - apply Exists_cons_tl. now apply IH.
Qed.

Lemma not_existing_hashable (E : gset string) leads :
  Forall (fun l => readable l = true) leads ->
  Forall (fun l => hashable_id l = true) leads ->
  not_existing E leads = Ok (List.filter (fresh E) leads).
Proof.
  induction 1 as [|l leads Hl _ IH]; intros Hh; [reflexivity|].
  apply Forall_cons in Hh as [Hhl Hh].
  destruct (readable_inv _ Hl) as (d & _ & -> & _).
  cbn [not_existing py_get rbind].
  assert (py_in (dict_get_default d "Id" VNone) E
          = Ok (negb (fresh E (VDict d)))) as ->.
  { unfold hashable_id, fresh, lead_id, dict_get in *.
    change (dict_get_default d "Id" VNone) with (default VNone (assoc "Id" d)).
    destruct (default VNone (assoc "Id" d)) as [| | |k| |];
      try discriminate; try reflexivity.
    simpl. f_equal. destruct (decide (k ∈ E)) as [Hin|Hin].
    - rewrite (bool_decide_eq_true_2 _ Hin).
      rewrite bool_decide_eq_false_2; [reflexivity|]. now intros ?.
    - rewrite (bool_decide_eq_false_2 _ Hin).
      now rewrite (bool_decide_eq_true_2 (k ∉ E)). }
  cbn [rbind]. rewrite (IH Hh). cbn [rbind List.filter].
  now destruct (fresh E (VDict d)).
Qed.

Lemma Forall_readable_filter (f : value -> bool) leads :
  Forall (fun l => readable l = true) leads ->
  Forall (fun l => readable l = true) (List.filter f leads).
Proof.
  induction 1 as [|l leads Hl _ IH]; simpl; [constructor|].
  destruct (f l); [now constructor|assumption].
Qed.

Lemma write_leads_refused w name rows leads :
  outage w = None -> tabs w !! name = Some rows ->
  Forall (fun l => readable l = true) leads ->
  Exists (fun l => writable l = false) leads ->
  write_leads leads name w
  = (Ok 0, logged (CAppend name A_U (map (lead_row (clock w)) leads)) w).
Proof.
  intros Ho Ht Hr Hu. unfold write_leads.
  rewrite bool_decide_eq_false_2 by (intros ->; inversion Hu).
  unfold bind at 1. rewrite (lead_rows_readable _ _ Hr).
  unfold except_HttpError, bind.
  now rewrite (values_append_refused _ _ _ _ _ Ho Ht
                 (body_text_unwritable (clock w) leads Hr Hu)).
Qed.

(** X10: when the records left to write hold one the service does not
    accept (a cell that is a list or an object), the one append request is
    refused as a whole: [append_leads] returns 0 without raising and the
    table keeps its rows; [replace_all_leads], which has cleared the table
    by then, returns 0 and leaves the header row alone. *)
Theorem refused_write_returns_0 :
  forall (w : store) (name : string) (rows : list (list string))
         (leads : list value) (skip : bool),
    outage w = None -> tabs w !! name = Some rows ->
    Forall (fun l => readable l = true) leads ->
    (skip = true -> Forall (fun l => hashable_id l = true) leads) ->
    let E : gset string := list_to_set (data_ids rows) in
    let kept := if skip then List.filter (fresh E) leads else leads in
    Exists (fun l => writable l = false) kept ->
    (exists w',
        append_leads leads name skip w = (Ok 0, w')
        /\ tabs w' !! name = Some (installed rows))
    /\ (Forall (fun r => (length r <= 21)%nat) rows ->
        Exists (fun l => writable l = false) leads ->
        exists w',
          replace_all_leads leads name w = (Ok 0, w')
          /\ tabs w' !! name = Some [HEADERS]).
Proof.
  intros w name rows leads skip Ho Ht Hr Hh E kept Hu.
  destruct (after_headers_spec name rows w Ho Ht) as (Ho1 & Hc1 & Ht1).
  split.
  - rewrite append_leads_split. unfold bind.
    rewrite (ensure_headers_existing _ _ _ Ho Ht).
    unfold append_body, bind, kept_leads.
    destruct skip.
    + unfold bind. rewrite (get_existing_lead_ids_ok _ _ _ Ho1 Ht1).
      rewrite data_ids_installed. unfold lift.
      rewrite (not_existing_hashable _ _ Hr (Hh eq_refl)). fold E.
      rewrite (write_leads_refused
                 (logged (CGet name A_A) (after_headers name rows w))
                 name (installed rows) _ Ho1 Ht1
                 (Forall_readable_filter _ _ Hr) Hu).
      eexists; split; [reflexivity|exact Ht1].
    + unfold ret.
      rewrite (write_leads_refused _ name (installed rows) _ Ho1 Ht1 Hr Hu).
      eexists; split; [reflexivity|exact Ht1].
  - intros Hw Hu'.
    unfold replace_all_leads, bind at 1, except_HttpError.
    rewrite (values_clear_ok _ _ _ Ho Ht).
    set (cleared := rstrip all_blank (take 1 rows ++ map blank_AU (drop 1 rows))).
    set (wc := logged (CClear name) w).
    assert (outage (with_tab name cleared wc) = None) as Hoc by exact Ho.
    assert (tabs (with_tab name cleared wc) !! name = Some cleared) as Htc
      by apply lookup_insert_eq.
    destruct (after_headers_spec name cleared (with_tab name cleared wc) Hoc Htc)
      as (Ho2 & Hc2 & Ht2).
    rewrite append_leads_split. unfold bind.
    rewrite (ensure_headers_existing (with_tab name cleared wc) name cleared
               Hoc Htc).
    unfold append_body, bind, kept_leads, ret.
    rewrite (write_leads_refused _ name (installed cleared) _ Ho2 Ht2 Hr Hu').
    eexists; split; [reflexivity|]. cbn [tabs logged].
    rewrite Ht2. subst cleared. now rewrite (cleared_installed rows Hw).
Qed.

End Headers_always.

(** * Further properties of the client *)

Section Protocol.
Context {B : Builtins} {R : Remote}.

Lemma get_access_token_sent c w r c' w' :
  get_access_token c w = (r, c', w') ->
  sent w' = sent w ++ auth_requests c w.
Proof.
  unfold get_access_token, auth_requests, exchange.
  destruct (token_valid c w).
  - intros [= _ _ <-]. now rewrite app_nil_r.
  - unfold http. cbn [fst snd].
    destruct (answer w (Get _ _)) as [token_data|e].
    + destruct (py_get token_data "access_token" VNone) as [tok|e].
      * destruct (rbind _ _) as [expires_in|e];
          [destruct (expiry_instant _ _) as [expiry|e]|]; now intros [= _ _ <-].
      * now intros [= _ _ <-].
    + destruct e; now intros [= _ _ <-].
Qed.

Lemma get_headers_sent c w r c' w' :
  get_headers c w = (r, c', w') ->
  sent w' = sent w ++ auth_requests c w.
Proof.
  unfold get_headers.
  destruct (get_access_token c w) as [[r0 c0] w0] eqn:Hcall.
  apply get_access_token_sent in Hcall.
  destruct r0 as [tok|e].
  - destruct (negb (truthy tok)); now intros [= _ _ <-].
  - now intros [= _ _ <-].
Qed.

Lemma page_turn_extends page_size acc data t :
  page_turn page_size acc data = Ok t ->
  match t with
  | Break l | Continue l => acc `prefix_of` l
  end.
Proof.
  unfold page_turn.
  destruct (py_get data _ _) as [leads_data|e]; [|discriminate]. cbn [rbind].
  destruct (py_get leads_data "ListOfSfileadbows" _) as [bows|e];
    [|discriminate]. cbn [rbind].
  destruct (py_get bows _ _) as [leads_list|e]; [|discriminate]. cbn [rbind].
  destruct (negb (truthy _)); [now intros [= <-]|].
  destruct (py_iter _) as [items|e]; [|discriminate]. cbn [rbind].
  destruct (py_get leads_data "LastPage" _) as [lp|e]; [|discriminate].
  cbn [rbind].
  destruct (py_eq_str lp "true"); [intros [= <-]; now apply prefix_app_r|].
  destruct (py_len _) as [n|e]; [|discriminate]. cbn [rbind].
  destruct (n <? page_size); intros [= <-]; now apply prefix_app_r.
Qed.

(** A run of the loop that ends has sent lookups only, at least one and at
    most [fuel], with offsets [start], [start + page_size], ...; the
    records it returns begin with the records it started from. *)
Lemma fetch_loop_trace :
  forall (fuel : nat) (url : string) (headers : value) (spec : string)
         (page_size : Z) (acc : list value) (start : Z) (w w' : net)
         (r : result (list value)),
    fetch_loop fuel url headers spec page_size acc start w = Some (r, w') ->
    exists k,
      (1 <= k <= fuel)%nat
      /\ sent w' = sent w ++ lookups url headers spec page_size start k
      /\ forall l, r = Ok l -> acc `prefix_of` l.
Proof.
  induction fuel as [|fuel IH];
    intros url headers spec page_size acc start w w' r; [discriminate|].
  cbn [fetch_loop]. unfold http.
  set (body := {| PageSize := page_size; Searchspec := spec;
                  StartRowNum := start |}).
  set (w1 := {| now := arrival w (Post url headers body);
                sent := sent w ++ [Post url headers body] |}).
  assert (sent w1 = sent w ++ lookups url headers spec page_size start 1) as H1.
  { subst w1. cbn [sent]. now rewrite lookups_S. }
  assert (forall r0, Some (r0, w1) = Some (r, w') ->
                     (forall l, r0 = Ok l -> acc `prefix_of` l) ->
                     exists k,
                       (1 <= k <= S fuel)%nat
                       /\ sent w' = sent w ++ lookups url headers spec page_size start k
                       /\ forall l, r = Ok l -> acc `prefix_of` l) as Hstop.
  { intros r0 [= <- <-] Hp. exists 1%nat. split; [lia|]. now split. }
  destruct (answer w (Post url headers body)) as [data|e].
  - destruct (page_turn page_size acc data) as [[l|l]|e] eqn:Hturn.
    + intros Hr. apply (Hstop _ Hr). intros l' [= <-].
      exact (page_turn_extends _ _ _ _ Hturn).
    + intros Hr. apply IH in Hr as (k & Hk & Hsent & Hpre).
      exists (S k). split; [lia|]. split.
      * rewrite Hsent, lookups_S. subst w1. cbn [sent].
        now rewrite <- app_assoc.
      * intros l' Hl'. etransitivity; [|now apply Hpre].
        exact (page_turn_extends _ _ _ _ Hturn).
    + intros Hr. apply (Hstop _ Hr). discriminate.
  - destruct e; intros Hr; apply (Hstop _ Hr); try discriminate.
    now intros l [= <-].
Qed.

Lemma get_access_token_stored c w tok c' w' :
  get_access_token c w = (Ok tok, c', w') -> truthy tok = true ->
  access_token c' = tok /\ is_Some (token_expiry c').
Proof.
  unfold get_access_token.
  destruct (token_valid c w) eqn:Hv.
  - intros [= <- <- <-] _.
    apply token_valid_iff in Hv as (e & -> & _). eauto.
  - unfold http. cbn [fst snd].
    destruct (answer w (Get _ _)) as [token_data|e].
    + destruct (py_get token_data "access_token" VNone) as [t|e];
        [|discriminate].
      destruct (rbind _ _) as [expires_in|e]; [|discriminate].
      destruct (expiry_instant _ _) as [expiry|e]; [|discriminate].
      intros [= <- <- <-] _. cbn. eauto.
    + destruct e; try discriminate. intros [= <- <- <-]. discriminate.
Qed.

Lemma get_headers_token c w tok c' w' :
  get_headers c w = (Ok tok, c', w') -> access_token c' = tok.
Proof.
  unfold get_headers.
  destruct (get_access_token c w) as [[r0 c0] w0] eqn:Hcall.
  destruct r0 as [t|e]; [|discriminate].
  destruct (negb (truthy t)) eqn:Ht; [discriminate|].
  intros [= <- <- <-]. apply negb_false_iff in Ht.
  exact (proj1 (get_access_token_stored _ _ _ _ _ Hcall Ht)).
Qed.

Lemma fetch_leads_trace :
  forall (fuel : nat) (c c' : client) (days_back : Z)
         (status : option string) (page_size : Z) (w w' : net)
         (r : result (list value)),
    fetch_leads fuel c days_back status page_size w = Some (r, c', w') ->
    exists k start_date,
      (k <= fuel)%nat
      /\ sent w'
         = sent w ++ auth_requests c w
           ++ lookups (base_url c +:+ "/leads/lookup") (access_token c')
                (make_searchspec c' start_date status) page_size 0 k
      /\ match get_headers c w with
         | (Raise e, _, _) => r = Raise e /\ k = 0%nat
         | (Ok _, _, w1) =>
             match start_instant (now w1) days_back with
             | Raise e => r = Raise e /\ k = 0%nat
             | Ok start =>
                 (1 <= k)%nat
                 /\ start_date = strftime "%m/%d/%Y 00:00:00" start
             end
         end.
Proof.
  intros fuel c c' days_back status page_size w w' r.
  unfold fetch_leads.
  destruct (get_headers c w) as [[rh c1] w1] eqn:Hhead.
  pose proof (get_headers_sent _ _ _ _ _ Hhead) as Hsent.
  destruct rh as [tok|e].
  - pose proof (get_headers_token _ _ _ _ _ Hhead) as Htoken.
    destruct (start_instant (now w1) days_back) as [start|e].
    + destruct (fetch_loop _ _ _ _ _ _ _ _) as [[r1 w2]|] eqn:Hloop;
        [|discriminate].
      intros [= <- <- <-].
      apply fetch_loop_trace in Hloop as (k & Hk & Hloop & _).
      exists k, (strftime "%m/%d/%Y 00:00:00" start).
      split; [lia|]. split.
      * rewrite Hloop, Hsent, Htoken. now rewrite <- app_assoc.
      * split; [lia|reflexivity].
    + intros [= <- <- <-].
      exists 0%nat, "". split; [lia|]. split; [|now split].
      now rewrite Hsent, app_nil_r.
  - intros [= <- <- <-].
    exists 0%nat, "". split; [lia|]. split; [|now split].
    now rewrite Hsent, app_nil_r.
Qed.

(** X11: a run of [fetch_leads] that ends has sent at most one token
    exchange, none when the cached token is valid, and after it lookups
    only, at most [fuel], all with the token the client holds at the end,
    page size [page_size], one search expression and offsets 0,
    [page_size], [2 * page_size], ... without a gap.  When the token
    cannot be had, or the start date [days_back] days before now is no
    date ([OverflowError]), it raises before any lookup; otherwise it
    sends at least one lookup, with that start date in the search
    expression.  [fetch_new_leads], [fetch_confirmed_leads] and
    [fetch_all_leads] are such runs with page size 100 and the status
    New, Confirmed and none. *)
Theorem fetch_leads_protocol :
  (forall (fuel : nat) (c c' : client) (days_back : Z)
          (status : option string) (page_size : Z) (w w' : net)
          (r : result (list value)),
      fetch_leads fuel c days_back status page_size w = Some (r, c', w') ->
      exists k start_date,
        (k <= fuel)%nat
        /\ sent w'
           = sent w ++ auth_requests c w
             ++ lookups (base_url c +:+ "/leads/lookup") (access_token c')
                  (make_searchspec c' start_date status) page_size 0 k
        /\ match get_headers c w with
           | (Raise e, _, _) => r = Raise e /\ k = 0%nat
           | (Ok _, _, w1) =>
               match start_instant (now w1) days_back with
               | Raise e => r = Raise e /\ e = OverflowError /\ k = 0%nat
               | Ok start =>
                   (1 <= k)%nat
                   /\ start = now w1 - days_back * day
                   /\ start_date = strftime "%m/%d/%Y 00:00:00" start
               end
           end)
  /\ (forall (fuel : nat) (c c' : client) (days_back : Z) (w w' : net)
             (r : result (list value)) (run : nat -> client -> Z -> net -> _)
             (status : option string),
         (run = fetch_new_leads /\ status = Some "New")
         \/ (run = fetch_confirmed_leads /\ status = Some "Confirmed")
         \/ (run = fetch_all_leads /\ status = None) ->
         run fuel c days_back w = Some (r, c', w') ->
         exists k start_date,
           sent w'
           = sent w ++ auth_requests c w
             ++ lookups (base_url c +:+ "/leads/lookup") (access_token c')
                  (make_searchspec c' start_date status) 100 0 k).
Proof.
  split.
  - intros fuel c c' days_back status page_size w w' r Hrun.
    destruct (fetch_leads_trace _ _ _ _ _ _ _ _ _ Hrun)
      as (k & start_date & Hk & Hsent & Hcases).
    exists k, start_date. split; [exact Hk|]. split; [exact Hsent|].
    destruct (get_headers c w) as [[[tok|e] c1] w1]; [|exact Hcases].
    destruct (start_instant (now w1) days_back) as [start|e] eqn:Hstart.
    + destruct Hcases as [H1 Hdate]. split; [exact H1|]. split; [|exact Hdate].
      now apply start_instant_spec in Hstart as (_ & _ & ->).
    + destruct Hcases as [Hr H0]. split; [exact Hr|]. split; [|exact H0].
      exact (start_instant_raises _ _ _ Hstart).
  - intros fuel c c' days_back w w' r run status Hwhich Hrun.
    assert (fetch_leads fuel c days_back status 100 w = Some (r, c', w'))
      as Hfetch.
    { destruct Hwhich as [[-> ->]|[[-> ->]|[-> ->]]]; exact Hrun. }
    destruct (fetch_leads_trace _ _ _ _ _ _ _ _ _ Hfetch)
      as (k & start_date & _ & Hsent & _).
    now exists k, start_date.
Qed.

(** X12: a token exchange that is answered stores the token and then
    computes the expiry, [expires_in - 300] seconds after the answer came
    back (1800 seconds when the answer gives no lifetime).  When that
    instant is a date it is stored, and a later call sends no request
    exactly when it is made before it; a token that lives 300 seconds or
    less is never used again.  When it is no date the call raises
    [OverflowError], with the new token stored and the expiry left as it
    was. *)
Theorem token_lifetime :
  forall (c : client) (w : net) (token_data tok : value) (expires_in : Z),
    token_valid c w = false ->
    answer w (exchange c) = Ok token_data ->
    py_get token_data "access_token" VNone = Ok tok ->
    (let* x := py_get token_data "expires_in" (VInt 1800) in py_int x)
    = Ok expires_in ->
    let t := arrival w (exchange c) in
    let w1 := {| now := t; sent := sent w ++ [exchange c] |} in
    (forall expiry,
        expiry_instant t expires_in = Ok expiry ->
        let c1 := set_token_expiry (set_access_token c tok) expiry in
        expiry = t + (expires_in - 300) * second
        /\ get_access_token c w = (Ok tok, c1, w1)
        /\ (forall w2, truthy tok = true ->
                       sent (snd (get_access_token c1 w2)) = sent w2
                       <-> now w2 < expiry)
        /\ (expires_in <= 300 ->
            forall w2, t <= now w2 ->
                       sent (snd (get_access_token c1 w2))
                       = sent w2 ++ [exchange c]))
    /\ (forall e,
           expiry_instant t expires_in = Raise e ->
           e = OverflowError
           /\ get_access_token c w
              = (Raise OverflowError, set_access_token c tok, w1))
    /\ ((exists expiry, expiry_instant t expires_in = Ok expiry)
        <-> Z.abs ((expires_in - 300) / 86400) <= 999999999
            /\ datetime_min <= t + (expires_in - 300) * second <= datetime_max)
    /\ (forall d, token_data = VDict d -> assoc "expires_in" d = None ->
                  expires_in = 1800).
Proof.
  intros c w token_data tok expires_in Hv Hans Htok Hlife t w1.
  assert (forall r,
             expiry_instant t expires_in = r ->
             get_access_token c w
             = match r with
               | Ok expiry =>
                   (Ok tok, set_token_expiry (set_access_token c tok) expiry, w1)
               | Raise e => (Raise e, set_access_token c tok, w1)
               end) as Hcall.
  { intros r Hr. unfold get_access_token. rewrite Hv. unfold http.
    fold (exchange c). rewrite Hans, Htok, Hlife. cbn [now].
    fold t. rewrite Hr. now destruct r. }
  split; [|split; [|split]].
  - intros expiry Hexp c1.
    assert (forall w2, token_valid c1 w2 = truthy tok && (now w2 <? expiry))
      as Hvalid by reflexivity.
    assert (forall w2, sent (snd (get_access_token c1 w2))
                       = sent w2 ++ auth_requests c1 w2) as Hsent.
    { intros w2. destruct (get_access_token c1 w2) as [[r2 c2] w3] eqn:Hrun.
      exact (get_access_token_sent _ _ _ _ _ Hrun). }
    pose proof (proj1 (expiry_instant_spec _ _ _) Hexp) as (_ & _ & Hval).
    split; [exact Hval|]. split; [exact (Hcall _ Hexp)|]. split.
    + intros w2 Ht. rewrite Hsent. unfold auth_requests.
      rewrite Hvalid, Ht. cbn [andb].
      destruct (Z.ltb_spec (now w2) expiry) as [Hlt|Hge].
      * rewrite app_nil_r. tauto.
      * split; [|lia]. intros Heq.
        apply (f_equal (@length request)) in Heq.
        rewrite length_app in Heq. simpl in Heq. lia.
    + intros Hshort w2 Hlater. rewrite Hsent. unfold auth_requests.
      rewrite Hvalid.
      assert ((now w2 <? expiry) = false) as ->.
      { apply Z.ltb_ge. rewrite Hval. unfold second. lia. }
      now rewrite andb_false_r.
  - intros e Hexp. pose proof (expiry_instant_raises _ _ _ Hexp) as ->.
    split; [reflexivity|]. exact (Hcall _ Hexp).
  - split.
    + intros (expiry & Hexp).
      apply expiry_instant_spec in Hexp as (Hd & Hrange & _). now split.
    + intros (Hd & Hrange). eexists. apply expiry_instant_spec.
      split; [exact Hd|]. split; [exact Hrange|reflexivity].
  - intros d -> Hnone. unfold py_get, dict_get_default in Hlife.
    rewrite Hnone in Hlife. cbn in Hlife. congruence.
Qed.

(** X13: when no valid token is cached and the token exchange fails, or is
    answered without a usable token (and with a lifetime that gives a
    date), [fetch_leads] raises after that one request and sends no
    lookup, whatever the fuel; after a failed exchange the client is as it
    was before. *)
Theorem no_token_no_lookup :
  forall (fuel : nat) (c : client) (days_back : Z) (status : option string)
         (page_size : Z) (w : net),
    token_valid c w = false ->
    let w1 := {| now := arrival w (exchange c);
                 sent := sent w ++ [exchange c] |} in
    let failed := Raise (Exception "Failed to obtain access token") in
    (answer w (exchange c) = Raise RequestException ->
     get_access_token c w = (Ok VNone, c, w1)
     /\ fetch_leads fuel c days_back status page_size w = Some (failed, c, w1))
    /\ (forall token_data tok expires_in expiry,
           answer w (exchange c) = Ok token_data ->
           py_get token_data "access_token" VNone = Ok tok ->
           truthy tok = false ->
           (let* x := py_get token_data "expires_in" (VInt 1800) in py_int x)
           = Ok expires_in ->
           expiry_instant (arrival w (exchange c)) expires_in = Ok expiry ->
           fetch_leads fuel c days_back status page_size w
           = Some (failed, set_token_expiry (set_access_token c tok) expiry, w1)).
Proof.
  intros fuel c days_back status page_size w Hv w1 failed. split.
  - intros Hans.
    assert (get_access_token c w = (Ok VNone, c, w1)) as Hcall.
    { unfold get_access_token. rewrite Hv. unfold http. fold (exchange c).
      now rewrite Hans. }
    split; [exact Hcall|].
    unfold fetch_leads, get_headers. now rewrite Hcall.
  - intros token_data tok expires_in expiry Hans Htok Ht Hlife Hexp.
    unfold fetch_leads, get_headers, get_access_token.
    rewrite Hv. unfold http. fold (exchange c).
    rewrite Hans, Htok, Hlife. cbn [now]. rewrite Hexp.
    cbn [access_token set_token_expiry set_access_token].
    now rewrite Ht.
Qed.

End Protocol.

Section Pages.
Context {B : Builtins}.

(** The turn of [fetch_leads] at the item of a scripted source that
    follows pages which do not stop the loop. *)
Lemma fetch_leads_item token_data pages item rest c days_back status
    page_size w headers c' w' start fuel :
  let script := map (fun p => Ok (encode p)) pages ++ item :: rest in
  get_headers (R := scripted token_data script) c w = (Ok headers, c', w') ->
  start_instant (now w') days_back = Ok start ->
  posts w = 0%nat ->
  Forall (fun p => stops page_size p = false) pages ->
  let url := base_url c' +:+ "/leads/lookup" in
  let spec :=
    make_searchspec c' (strftime "%m/%d/%Y 00:00:00" start)
      status in
  let acc := concat (map records pages) in
  let w'' := after (lookups url headers spec page_size 0 (S (length pages))) w' in
  fetch_leads (R := scripted token_data script) (length pages + S fuel)
    c days_back status page_size w
  = match item with
    | Raise RequestException => Some (Ok acc, c', w'')
    | Raise e => Some (Raise e, c', w'')
    | Ok data =>
        match page_turn page_size acc data with
        | Raise e => Some (Raise e, c', w'')
        | Ok (Break all_leads) => Some (Ok all_leads, c', w'')
        | Ok (Continue all_leads) =>
            match fetch_loop (R := scripted token_data script) fuel url
                    headers spec page_size all_leads
                    (Z.of_nat (length pages) * page_size + page_size) w''
            with
            | Some (r, w3) => Some (r, c', w3)
            | None => None
            end
        end
    end.
Proof.
  intros script Hhead Hstart Hposts Hgo url spec acc w''.
  rewrite (fetch_leads_pages token_data pages item rest c days_back status
             page_size w headers c' w' start _ Hhead Hstart Hposts Hgo).
  fold script url spec acc. cbn [fetch_loop]. unfold http.
  cbn [answer scripted arrival].
  rewrite posts_after_lookups.
  rewrite (get_headers_posts _ _ _ _ _ Hhead), Hposts. cbn [Nat.add].
  assert (script !! length pages = Some item) as ->.
  { subst script.
    rewrite <- (length_map (fun p => Ok (encode p)) pages) at 1.
    now apply list_lookup_middle. }
  change (default (Raise RequestException) (Some item)) with item.
  change {| now := now (after ?rs w'); sent := sent (after ?rs w') ++ [?r] |}
    with (after [r] (after rs w')).
  rewrite after_after, <- lookups_snoc. fold w''.
  destruct item as [data|e].
  - destruct (page_turn page_size acc data) as [[l|l]|e]; reflexivity.
  - destruct e; reflexivity.
Qed.

Lemma page_turn_bare page_size acc d lp :
  page_turn page_size acc (encode_bare d lp)
  = page_turn page_size acc (encode {| records := [VDict d]; last_page := lp |}).
Proof. reflexivity. Qed.

Lemma page_turn_no_envelope page_size acc data :
  no_envelope data = true -> page_turn page_size acc data = Raise AttributeError.
Proof.
  unfold no_envelope, page_turn.
  destruct data as [| | | | |d]; try reflexivity. cbn [py_get rbind].
  destruct (dict_get_default d _ _) as [| | | | |ld]; try reflexivity.
  cbn [py_get rbind].
  destruct (dict_get_default ld _ _) as [| | | | |bows]; try reflexivity.
  discriminate.
Qed.

(** X14: in a run that gets as far as the lookups, a page whose record
    list is a bare object instead of a list is read as a page of that one
    record: it is added to the records fetched so far, and it ends the run
    when it says it is the last page or the page size is above one. *)
Theorem fetch_leads_single_record :
  forall (token_data : value) (pages : list page) (d : dict) (lp : value)
         (rest : list (result value)) (c c' : client) (days_back : Z)
         (status : option string) (page_size : Z) (w w' : net)
         (headers : value) (start : Z) (fuel : nat),
    let script :=
      map (fun p => Ok (encode p)) pages ++ Ok (encode_bare d lp) :: rest in
    get_headers (R := scripted token_data script) c w = (Ok headers, c', w') ->
    start_instant (now w') days_back = Ok start ->
    posts w = 0%nat ->
    Forall (fun p => stops page_size p = false) pages ->
    py_eq_str lp "true" = true \/ 1 < page_size ->
    (length pages < fuel)%nat ->
    let url := base_url c' +:+ "/leads/lookup" in
    let spec :=
      make_searchspec c'
        (strftime "%m/%d/%Y 00:00:00" start) status in
    fetch_leads (R := scripted token_data script) fuel c days_back status
      page_size w
    = Some (Ok (concat (map records pages) ++ [VDict d]), c',
            after (lookups url headers spec page_size 0 (S (length pages))) w').
Proof.
  intros token_data pages d lp rest c c' days_back status page_size w w'
    headers start fuel script Hhead Hstart Hposts Hgo Hlast Hfuel url spec.
  replace fuel with (length pages + S (fuel - S (length pages)))%nat by lia.
  rewrite (fetch_leads_item token_data pages _ rest c days_back status
             page_size w headers c' w' start _ Hhead Hstart Hposts Hgo).
  rewrite page_turn_bare, page_turn_encode.
  assert (stops page_size {| records := [VDict d]; last_page := lp |} = true)
    as ->; [|reflexivity].
  unfold stops. cbn [records last_page length].
  destruct Hlast as [->|Hps]; [now rewrite orb_true_r|].
  apply orb_true_iff. right. apply Z.ltb_lt. lia.
Qed.

(** X15: in a run that gets as far as the lookups, a body in which the
    records are not wrapped in the two expected objects (the body, its
    ["SFILEADLOOKUPWS_Output"] or the ["ListOfSfileadbows"] in it is no
    object) makes [fetch_leads] raise [AttributeError]: the records of the
    pages fetched before it are not returned. *)
Theorem fetch_leads_malformed_page :
  forall (token_data : value) (pages : list page) (data : value)
         (rest : list (result value)) (c c' : client) (days_back : Z)
         (status : option string) (page_size : Z) (w w' : net)
         (headers : value) (start : Z) (fuel : nat),
    let script := map (fun p => Ok (encode p)) pages ++ Ok data :: rest in
    get_headers (R := scripted token_data script) c w = (Ok headers, c', w') ->
    start_instant (now w') days_back = Ok start ->
    posts w = 0%nat ->
    Forall (fun p => stops page_size p = false) pages ->
    no_envelope data = true ->
    (length pages < fuel)%nat ->
    let url := base_url c' +:+ "/leads/lookup" in
    let spec :=
      make_searchspec c'
        (strftime "%m/%d/%Y 00:00:00" start) status in
    fetch_leads (R := scripted token_data script) fuel c days_back status
      page_size w
    = Some (Raise AttributeError, c',
            after (lookups url headers spec page_size 0 (S (length pages))) w').
Proof.
  intros token_data pages data rest c c' days_back status page_size w w'
    headers start fuel script Hhead Hstart Hposts Hgo Hbad Hfuel url spec.
  replace fuel with (length pages + S (fuel - S (length pages)))%nat by lia.
  rewrite (fetch_leads_item token_data pages _ rest c days_back status
             page_size w headers c' w' start _ Hhead Hstart Hposts Hgo).
  now rewrite page_turn_no_envelope.
Qed.

End Pages.

(** * Properties of the CSV export *)

Section Csv_export.
Context {B : Builtins}.
Import Sheets Collect.

Lemma csv_row_cells lead cells :
  lead_cells lead = Ok cells -> csv_row lead = Ok (take 18 cells).
Proof.
  destruct lead as [| | | | |d]; try discriminate.
  unfold lead_cells, csv_row.
  destruct (extract_notes d) as [notes|e]; [|discriminate].
  cbn [rbind]. now intros [= <-].
Qed.

Lemma csv_loop_sheet leads :
  forall w rows file,
    fst (lead_rows leads w) = Ok rows ->
    csv_loop leads file = (Ok tt, file ++ map (take 18) rows).
Proof.
  induction leads as [|l leads IH]; intros w rows file.
  - cbn. intros [= <-]. now rewrite app_nil_r.
  - cbn [lead_rows csv_loop]. unfold bind at 1.
    unfold lead_to_row at 1. unfold bind at 1. unfold lift.
    destruct (lead_cells l) as [cells|e] eqn:Hcells; [|discriminate].
    unfold bind at 1.
    destruct (lead_rows leads w) as [[rest|e] w1] eqn:Hrest; [|discriminate].
    unfold ret. cbn [fst]. intros [= <-].
    rewrite (csv_row_cells _ _ Hcells).
    rewrite (IH w rest) by now rewrite Hrest.
    cbn [map]. rewrite <- app_assoc. cbn [app]. do 3 f_equal.
    pose proof (lead_cells_length _ _ Hcells) as Hlen.
    now rewrite take_app_le by lia.
Qed.

(** X16: the CSV file agrees with the sheet.  For leads the sheet manager
    turns into rows, [export_to_csv] writes the first eighteen headers of
    the sheet and, per lead and in the same order, the first eighteen
    cells of the row the sheet would get (up to Description; the question
    answers, the notes and the time stamp are left out). *)
Theorem export_to_csv_matches_sheet :
  forall (leads : list value) (w : store) (rows : list (list value)),
    fst (lead_rows leads w) = Ok rows ->
    export_to_csv leads
    = (Ok tt, map VStr (take 18 HEADERS) :: map (take 18) rows).
Proof.
  intros leads w rows Hrows. unfold export_to_csv.
  now rewrite (csv_loop_sheet leads w rows _ Hrows).
Qed.

End Csv_export.

Section Csv_errors.
Import Collect.

Lemma csv_loop_dicts ds :
  forall file,
    exists rows,
      csv_loop (map VDict ds) file = (Ok tt, file ++ rows)
      /\ length rows = length ds
      /\ Forall (fun row => length row = 18%nat) rows.
Proof.
  induction ds as [|d ds IH]; intros file.
  - exists []. now rewrite app_nil_r.
  - cbn [map csv_loop csv_row].
    match goal with
    | |- context [csv_loop _ (file ++ [?row])] =>
        destruct (IH (file ++ [row])) as (rows & Hrun & Hlen & Hw);
        exists (row :: rows)
    end.
    rewrite Hrun, <- app_assoc. cbn [app length]. split; [reflexivity|].
    split; [now rewrite Hlen|]. now constructor.
Qed.

Lemma csv_loop_app leads :
  forall more file file',
    csv_loop leads file = (Ok tt, file') ->
    csv_loop (leads ++ more) file = csv_loop more file'.
Proof.
  induction leads as [|l leads IH]; intros more file file'.
  - cbn. now intros [= <-].
  - cbn [app csv_loop]. destruct (csv_row l) as [row|e]; [|discriminate].
    apply IH.
Qed.

(** X17: [export_to_csv] reads no notes, so it writes a row of eighteen
    cells for every lead that is an object, whatever the object holds.  At
    the first lead that is no object it raises [AttributeError]; the file
    then holds the header and the rows of the leads before that one. *)
Theorem export_to_csv_objects_only :
  (forall (ds : list dict),
      exists rows,
        export_to_csv (map VDict ds) = (Ok tt, map VStr csv_headers :: rows)
        /\ length rows = length ds
        /\ Forall (fun row => length row = length csv_headers) rows)
  /\ (forall (ds : list dict) (bad : value) (rest : list value),
         is_dict bad = false ->
         export_to_csv (map VDict ds ++ bad :: rest)
         = (Raise AttributeError, snd (export_to_csv (map VDict ds)))).
Proof.
  split.
  - intros ds. unfold export_to_csv.
    destruct (csv_loop_dicts ds [map VStr csv_headers]) as (rows & -> & Hlen & Hw).
    exists rows. now split.
  - intros ds bad rest Hbad. unfold export_to_csv.
    destruct (csv_loop_dicts ds [map VStr csv_headers]) as (rows & Hrun & _).
    rewrite (csv_loop_app _ _ _ _ Hrun), Hrun. cbn [snd csv_loop].
    now destruct bad.
Qed.

End Csv_errors.

(** * Closed instances *)

#[local] Existing Instance demo_builtins.

Lemma get_existing_lead_ids_column_A_witness :
  let rows := [HEADERS; ["A"; "x"]; []; ["B"]; [""; "y"]] in
  let w := store_of "Leads" rows in
  get_existing_lead_ids "Leads" w
  = (Ok (list_to_set ["A"; "B"]), logged (CGet "Leads" A_A) w)
  /\ get_existing_lead_ids "Other" w = (Ok ∅, logged (CGet "Other" A_A) w).
Proof.
  split.
  - apply (proj1 get_existing_lead_ids_column_A
             (store_of "Leads" [HEADERS; ["A"; "x"]; []; ["B"]; [""; "y"]])
             "Leads" [HEADERS; ["A"; "x"]; []; ["B"]; [""; "y"]]);
      reflexivity.
  - apply (proj2 get_existing_lead_ids_column_A). right. reflexivity.
Defined.

Lemma ensure_headers_only_when_needed_witness :
  let w := store_of "Leads" [HEADERS; ["A"]] in
  let w' := store_of "Leads" [["Id"; "Name"]; ["A"]] in
  ensure_headers "Leads" w = (Ok tt, logged (CGet "Leads" A1_U1) w)
  /\ ensure_headers "Leads" w'
     = (Ok tt,
        with_tab "Leads" [HEADERS; ["A"]]
          (logged (CUpdate "Leads" A1_U1 [map VStr HEADERS])
             (logged (CGet "Leads" A1_U1) w'))).
Proof.
  split.
  - apply (proj1 (proj1 ensure_headers_only_when_needed
                    (store_of "Leads" [HEADERS; ["A"]]) "Leads" [HEADERS; ["A"]]
                    eq_refl eq_refl)).
    reflexivity.
  - apply (proj2 (proj1 ensure_headers_only_when_needed
                    (store_of "Leads" [["Id"; "Name"]; ["A"]]) "Leads"
                    [["Id"; "Name"]; ["A"]] eq_refl eq_refl)).
    discriminate.
Defined.

Lemma append_leads_skips_existing_witness :
  let w := store_of "Leads" [HEADERS; ["A"]] in
  exists w',
    append_leads [lead_of "A"; lead_of "C"] "Leads" true w = (Ok 1, w')
    /\ tabs w' !! "Leads" = Some [HEADERS; ["A"]; sheet_row 0 (lead_of "C")].
Proof.
  destruct (proj1 append_leads_skips_existing
              (store_of "Leads" [HEADERS; ["A"]]) "Leads" [HEADERS; ["A"]]
              [lead_of "A"; lead_of "C"])
    as (w' & Hrun & Htab & _).
  - reflexivity.
  - reflexivity.
  - repeat constructor.
  - exists w'. split; [exact Hrun|exact Htab].
Defined.

Lemma append_leads_keeps_batch_duplicates_witness :
  let w := store_of "Leads" [HEADERS; ["B"]] in
  exists w',
    append_leads [lead_of "A"; lead_of "B"; lead_of "A"] "Leads" true w
    = (Ok 2, w')
    /\ tabs w' !! "Leads"
       = Some [HEADERS; ["B"]; sheet_row 0 (lead_of "A"); sheet_row 0 (lead_of "A")].
Proof.
  destruct (append_leads_keeps_batch_duplicates
              (store_of "Leads" [HEADERS; ["B"]]) "Leads" [HEADERS; ["B"]]
              [lead_of "A"; lead_of "B"; lead_of "A"] "A")
    as (w' & Hrun & Htab & _).
  - reflexivity.
  - reflexivity.
  - repeat constructor.
  - apply (bool_decide_unpack _). vm_compute. exact I.
  - exists w'. split; [exact Hrun|exact Htab].
Defined.

Lemma append_leads_twice_witness :
  let w := store_of "Leads" [HEADERS; ["A"]] in
  let leads := [lead_of "A"; lead_of "C"] in
  exists n w1 w2,
    append_leads leads "Leads" true w = (Ok n, w1)
    /\ append_leads leads "Leads" true w1 = (Ok 0, w2)
    /\ tabs w2 = tabs w1.
Proof.
  destruct (append_leads_twice
              (store_of "Leads" [HEADERS; ["A"]]) "Leads" [HEADERS; ["A"]]
              [lead_of "A"; lead_of "C"])
    as (n & w1 & w2 & rows2 & H1 & H2 & H3 & _).
  - reflexivity.
  - reflexivity.
  - repeat constructor.
  - repeat constructor.
  - exists n, w1, w2. split; [exact H1|split; [exact H2|exact H3]].
Defined.

(** C2 as the specification words it: a batch that holds the same new
    identifier twice is written whole by the first call, so the identifier
    is in the table twice after the two calls. *)
Lemma append_leads_twice_batch_duplicate :
  let leads := [lead_of "A"; lead_of "A"] in
  let w := store_of "Leads" [HEADERS] in
  let first := append_leads leads "Leads" true w in
  let second := append_leads leads "Leads" true (snd first) in
  Forall (fun l => writable l = true /\ keyed l = true) leads
  /\ fst first = Ok 2
  /\ fst second = Ok 0
  /\ exists rows2,
       tabs (snd second) !! "Leads" = Some rows2
       /\ data_ids rows2 = ["A"; "A"]
       /\ count_occ string_dec (data_ids rows2) "A" = 2%nat.
Proof.
  split; [repeat constructor|].
  split; [vm_compute; reflexivity|].
  split; [vm_compute; reflexivity|].
  eexists. split; [vm_compute; reflexivity|].
  split; reflexivity.
Qed.

Lemma get_access_token_cached_witness :
  let c := set_token_expiry (set_access_token (init "key" "secret" "50020059")
                               (VStr "token")) 1500 in
  let w := {| now := 7; sent := [Get "u" "a"] |} in
  get_access_token (R := scripted VNone []) c w = (Ok (VStr "token"), c, w).
Proof.
  apply (proj1 (get_access_token_cached (R := scripted VNone []))
           (set_token_expiry (set_access_token (init "key" "secret" "50020059")
                                (VStr "token")) 1500)
           {| now := 7; sent := [Get "u" "a"] |} 1500).
  - reflexivity.
  - reflexivity.
  - reflexivity.
Defined.

Lemma fetch_leads_paginates_witness :
  let script := [Ok (encode (sample_page ["1"; "2"]));
                 Ok (encode (sample_page ["3"]));
                 Ok (encode (sample_page ["4"; "5"]))] in
  exists c' w',
    fetch_leads (R := scripted sample_token script) 5
      (init "key" "secret" "50020059") 30 None 2 {| now := 0; sent := [] |}
    = Some (Ok [lead_of "1"; lead_of "2"; lead_of "3"], c', w').
Proof.
  eexists _, _.
  eapply (proj1 fetch_leads_paginates sample_token
            [sample_page ["1"; "2"]] (sample_page ["3"])
            [Ok (encode (sample_page ["4"; "5"]))]
            (init "key" "secret" "50020059") _ 30 None 2
            {| now := 0; sent := [] |} _ _ _ 5%nat).
  - reflexivity.
  - reflexivity.
  - reflexivity.
  - repeat constructor.
  - reflexivity.
  - simpl. lia.
Defined.

Lemma fetch_leads_partial_on_failure_witness :
  let script := [Ok (encode (sample_page ["1"; "2"]));
                 Raise RequestException;
                 Ok (encode (sample_page ["4"; "5"]))] in
  exists c' w',
    fetch_leads (R := scripted sample_token script) 5
      (init "key" "secret" "50020059") 30 None 2 {| now := 0; sent := [] |}
    = Some (Ok [lead_of "1"; lead_of "2"], c', w').
Proof.
  eexists _, _.
  eapply (fetch_leads_partial_on_failure sample_token
            [sample_page ["1"; "2"]]
            [Ok (encode (sample_page ["4"; "5"]))]
            (init "key" "secret" "50020059") _ 30 None 2
            {| now := 0; sent := [] |} _ _ _ 5%nat).
  - reflexivity.
  - reflexivity.
  - reflexivity.
  - repeat constructor.
  - simpl. lia.
Defined.

Lemma fetch_loop_terminates_witness :
  is_Some (fetch_loop (R := dataset sample_token
                               [lead_of "1"; lead_of "2"; lead_of "3"])
             4 "u" (VStr "token") "s" 2 [] 0 {| now := 0; sent := [] |})
  /\ fetch_loop (R := constant sample_token (encode (sample_page ["1"])))
       4 "u" (VStr "token") "s" 0 [] 0 {| now := 0; sent := [] |}
     = None.
Proof.
  split.
  - apply (proj1 (fetch_loop_terminates
                    (R := dataset sample_token
                            [lead_of "1"; lead_of "2"; lead_of "3"]))
             3 2 "u" (VStr "token") "s").
    + lia.
    + apply (dataset_finite sample_token [lead_of "1"; lead_of "2"; lead_of "3"]).
    + simpl. lia.
  - apply (proj2 (fetch_loop_terminates
                    (R := constant sample_token (encode (sample_page ["1"]))))
             (sample_page ["1"]) "u" (VStr "token") "s" 0).
    + discriminate.
    + reflexivity.
    + reflexivity.
Defined.

(** C10 as the specification words it: with [page_size = 0] a non-empty
    first page that declares itself the last page ends the loop after one
    lookup. *)
Lemma fetch_loop_page_size_0_last_page :
  let p := {| records := [lead_of "1"]; last_page := VStr "true" |} in
  let w := {| now := 0; sent := [] |} in
  let body := {| PageSize := 0; Searchspec := "s"; StartRowNum := 0 |} in
  records p <> []
  /\ fetch_loop (R := constant sample_token (encode p))
       1 "u" (VStr "token") "s" 0 [] 0 w
     = Some (Ok [lead_of "1"], after [Post "u" (VStr "token") body] w)
  /\ ~ (forall fuel,
          fetch_loop (R := constant sample_token (encode p))
            fuel "u" (VStr "token") "s" 0 [] 0 w = None).
Proof.
  split; [discriminate|]. split; [reflexivity|].
  intros Hnever. specialize (Hnever 1%nat). discriminate Hnever.
Qed.

(** ** Instances of the further properties *)

Lemma append_leads_accounts_witness :
  let w := store_of "Leads" [HEADERS; ["A"]] in
  let run := append_leads [lead_of "A"; lead_of "C"] "Leads" true w in
  exists added,
    data_rows "Leads" (snd run) = data_rows "Leads" w ++ added
    /\ Forall (fun row => length row = 21%nat) added
    /\ match fst run with
       | Ok n => n = Z.of_nat (length added)
       | Raise _ => added = []
       end
    /\ forall other, other <> "Leads" -> tabs (snd run) !! other = tabs w !! other.
Proof.
  apply (append_leads_accounts [lead_of "A"; lead_of "C"] "Leads" true
           (store_of "Leads" [HEADERS; ["A"]])).
  vm_compute. reflexivity.
Defined.

Lemma headers_in_place_after_write_witness :
  let w := store_of "Leads" [["Id"]; ["A"]] in
  let run := append_leads [lead_of "C"] "Leads" true w in
  exists rows, tabs (snd run) !! "Leads" = Some rows /\ first_row rows = HEADERS.
Proof.
  apply (proj1 headers_in_place_after_write [lead_of "C"] "Leads" true
           (store_of "Leads" [["Id"]; ["A"]]) _ 1).
  vm_compute. reflexivity.
Defined.

Lemma header_failure_is_raised_witness :
  let w := {| tabs := {[ "Leads" := [HEADERS] ]}; outage := Some 503;
              clock := 0; calls := [] |} in
  append_leads [lead_of "C"] "Leads" true w
  = (Raise (HttpError 503), logged (CGet "Leads" A1_U1) w)
  /\ replace_all_leads [lead_of "C"] "Leads" w
     = (Raise (HttpError 503),
        logged (CGet "Leads" A1_U1) (logged (CClear "Leads") w))
  /\ tabs (snd (replace_all_leads [lead_of "C"] "Leads" w)) = tabs w.
Proof.
  apply (header_failure_is_raised [lead_of "C"] "Leads" true
           {| tabs := {[ "Leads" := [HEADERS] ]}; outage := Some 503;
              clock := 0; calls := [] |} 503).
  - reflexivity.
  - discriminate.
Defined.

Lemma ensure_headers_retries_without_bound_witness :
  let w := {| tabs := ∅; outage := Some 400; clock := 0; calls := [] |} in
  (forall depth,
      exists w' requests,
        ensure_headers_at depth "Leads" w = (Raise RecursionError, w')
        /\ tabs w' = tabs w
        /\ calls w' = calls w ++ requests
        /\ Forall (fun c => c = CGet "Leads" A1_U1 \/ c = CAddSheet "Leads")
              requests)
  /\ forall leads skip,
       fst (append_leads leads "Leads" skip w) = Raise RecursionError.
Proof.
  apply (ensure_headers_retries_without_bound "Leads"
           {| tabs := ∅; outage := Some 400; clock := 0; calls := [] |}).
  reflexivity.
Defined.

Lemma ensure_headers_settles_witness :
  let w := store_of "Leads" [["Id"]; ["A"]] in
  let w1 := snd (ensure_headers "Leads" w) in
  ensure_headers "Leads" w1 = (Ok tt, logged (CGet "Leads" A1_U1) w1).
Proof.
  apply (ensure_headers_settles "Leads" (store_of "Leads" [["Id"]; ["A"]])).
  vm_compute. reflexivity.
Defined.

Lemma append_leads_without_skip_witness :
  let w := store_of "Leads" [HEADERS; ["A"]] in
  exists w',
    append_leads [lead_of "A"] "Leads" false w = (Ok 1, w')
    /\ tabs w' !! "Leads" = Some [HEADERS; ["A"]; sheet_row 0 (lead_of "A")].
Proof.
  destruct (append_leads_without_skip (store_of "Leads" [HEADERS; ["A"]])
              "Leads" [HEADERS; ["A"]] [lead_of "A"])
    as (w' & Hrun & Htab & _).
  - reflexivity.
  - reflexivity.
  - repeat constructor.
  - exists w'. split; [exact Hrun|exact Htab].
Defined.

Lemma replace_all_leads_replaces_witness :
  let w := store_of "Leads" [HEADERS; ["A"]; ["B"]] in
  exists w',
    replace_all_leads [lead_of "C"] "Leads" w = (Ok 1, w')
    /\ tabs w' !! "Leads" = Some [HEADERS; sheet_row 0 (lead_of "C")].
Proof.
  apply (proj1 replace_all_leads_replaces
           (store_of "Leads" [HEADERS; ["A"]; ["B"]]) "Leads"
           [HEADERS; ["A"]; ["B"]] [lead_of "C"]).
  - reflexivity.
  - reflexivity.
  - repeat constructor; simpl; lia.
  - repeat constructor.
Defined.

Lemma refused_write_returns_0_witness :
  let w := store_of "Leads" [HEADERS; ["A"]] in
  let bad := VDict [("Id", VStr "C"); ("Description", VList [])] in
  (exists w',
      append_leads [bad] "Leads" true w = (Ok 0, w')
      /\ tabs w' !! "Leads" = Some [HEADERS; ["A"]])
  /\ exists w',
       replace_all_leads [bad] "Leads" w = (Ok 0, w')
       /\ tabs w' !! "Leads" = Some [HEADERS].
Proof.
  destruct (refused_write_returns_0 (store_of "Leads" [HEADERS; ["A"]])
              "Leads" [HEADERS; ["A"]]
              [VDict [("Id", VStr "C"); ("Description", VList [])]] true)
    as [Happend Hreplace].
  - reflexivity.
  - reflexivity.
  - repeat constructor.
  - intros _. repeat constructor.
  - apply Exists_cons_hd. reflexivity.
  - split; [exact Happend|]. apply Hreplace.
    + repeat constructor; simpl; lia.
    + apply Exists_cons_hd. reflexivity.
Defined.

Lemma fetch_leads_protocol_witness :
  let R := scripted sample_token [Ok (encode (sample_page ["1"]))] in
  let c := init "key" "secret" "50020059" in
  let w := {| now := 0; sent := [] |} in
  exists r c' w' k start_date,
    fetch_leads (R := R) 5 c 30 None 2 w = Some (r, c', w')
    /\ (k <= 5)%nat
    /\ sent w'
       = sent w ++ auth_requests c w
         ++ lookups (base_url c +:+ "/leads/lookup") (access_token c')
              (make_searchspec c' start_date None) 2 0 k.
Proof.
  intros R c w.
  assert (exists r c' w', fetch_leads (R := R) 5 c 30 None 2 w = Some (r, c', w'))
    as (r & c' & w' & Hrun) by (eexists _, _, _; reflexivity).
  destruct (proj1 (@fetch_leads_protocol demo_builtins R) 5%nat c c' 30 None 2 w w' r Hrun)
    as (k & start_date & Hk & Hsent & _).
  exists r, c', w', k, start_date. split; [exact Hrun|]. split; [exact Hk|exact Hsent].
Defined.

Lemma token_lifetime_witness :
  let R := scripted sample_token [] in
  let c := init "key" "secret" "50020059" in
  let w := {| now := 0; sent := [] |} in
  get_access_token (R := R) c w
  = (Ok (VStr "token"),
     set_token_expiry (set_access_token c (VStr "token")) (1500 * second),
     {| now := 0; sent := [exchange c] |}).
Proof.
  apply (proj1 (token_lifetime (R := scripted sample_token [])
                  (init "key" "secret" "50020059") {| now := 0; sent := [] |}
                  sample_token (VStr "token") 1800
                  eq_refl eq_refl eq_refl eq_refl)
           (1500 * second) eq_refl).
Defined.

Lemma no_token_no_lookup_witness :
  let R := {| answer := fun _ _ => Raise RequestException;
              arrival := fun w _ => now w |} in
  let c := init "key" "secret" "50020059" in
  let w := {| now := 0; sent := [] |} in
  fetch_leads (R := R) 5 c 30 None 100 w
  = Some (Raise (Exception "Failed to obtain access token"), c,
          {| now := 0; sent := [exchange c] |}).
Proof.
  apply (proj1 (no_token_no_lookup
                  (R := {| answer := fun _ _ => Raise RequestException;
                           arrival := fun w _ => now w |})
                  5 (init "key" "secret" "50020059") 30 None 100
                  {| now := 0; sent := [] |} eq_refl)).
  reflexivity.
Defined.

Lemma fetch_leads_single_record_witness :
  let script := [Ok (encode (sample_page ["1"; "2"]));
                 Ok (encode_bare [("Id", VStr "3")] (VStr "false"))] in
  exists c' w',
    fetch_leads (R := scripted sample_token script) 5
      (init "key" "secret" "50020059") 30 None 2 {| now := 0; sent := [] |}
    = Some (Ok [lead_of "1"; lead_of "2"; lead_of "3"], c', w').
Proof.
  eexists _, _.
  eapply (fetch_leads_single_record sample_token
            [sample_page ["1"; "2"]] [("Id", VStr "3")] (VStr "false") []
            (init "key" "secret" "50020059") _ 30 None 2
            {| now := 0; sent := [] |} _ _ _ 5%nat).
  - reflexivity.
  - reflexivity.
  - reflexivity.
  - repeat constructor.
  - right. lia.
  - simpl. lia.
Defined.

Lemma fetch_leads_malformed_page_witness :
  let script := [Ok (encode (sample_page ["1"; "2"]));
                 Ok (VDict [("SFILEADLOOKUPWS_Output",
                             VDict [("ListOfSfileadbows", VStr "")])])] in
  exists c' w',
    fetch_leads (R := scripted sample_token script) 5
      (init "key" "secret" "50020059") 30 None 2 {| now := 0; sent := [] |}
    = Some (Raise AttributeError, c', w').
Proof.
  eexists _, _.
  eapply (fetch_leads_malformed_page sample_token
            [sample_page ["1"; "2"]]
            (VDict [("SFILEADLOOKUPWS_Output",
                     VDict [("ListOfSfileadbows", VStr "")])]) []
            (init "key" "secret" "50020059") _ 30 None 2
            {| now := 0; sent := [] |} _ _ _ 5%nat).
  - reflexivity.
  - reflexivity.
  - reflexivity.
  - repeat constructor.
  - reflexivity.
  - simpl. lia.
Defined.

Lemma export_to_csv_matches_sheet_witness :
  let leads := [lead_of "A"; lead_of "B"] in
  Collect.export_to_csv leads
  = (Ok tt,
     map VStr (take 18 HEADERS) :: map (take 18) (map (lead_row 0) leads)).
Proof.
  apply (export_to_csv_matches_sheet [lead_of "A"; lead_of "B"]
           (store_of "Leads" [])).
  reflexivity.
Defined.

Lemma export_to_csv_objects_only_witness :
  Collect.export_to_csv [lead_of "A"; VStr "B"; lead_of "C"]
  = (Raise AttributeError, snd (Collect.export_to_csv [lead_of "A"])).
Proof.
  apply (proj2 export_to_csv_objects_only [[("Id", VStr "A")]] (VStr "B")
           [lead_of "C"]).
  reflexivity.
Defined.

(** The two computations on instants, out of range: a start date a million
    days back and a token that lives 10^12 seconds.  [fetch_leads] raises
    after the exchange and before any lookup; [_get_access_token] raises
    with the token stored and no expiry. *)
Lemma fetch_leads_start_out_of_range :
  let script := [Ok (encode (sample_page ["1"]))] in
  let c := init "key" "secret" "50020059" in
  let w := {| now := 0; sent := [] |} in
  exists c' w',
    fetch_leads (R := scripted sample_token script) 5 c 1000000 None 100 w
    = Some (Raise OverflowError, c', w')
    /\ sent w' = [exchange c].
Proof. eexists _, _. split; reflexivity. Qed.

Lemma get_access_token_expiry_out_of_range :
  let token_data :=
    VDict [("access_token", VStr "token"); ("expires_in", VInt (10 ^ 12))] in
  let c := init "key" "secret" "50020059" in
  let w := {| now := 0; sent := [] |} in
  get_access_token (R := scripted token_data []) c w
  = (Raise OverflowError, set_access_token c (VStr "token"),
     {| now := 0; sent := [exchange c] |})
  /\ token_expiry (set_access_token c (VStr "token")) = None.
Proof. split; reflexivity. Qed.
